(** * Dify DB Search: a shallow embedding of [server.py]

    The development follows the layout of the source file: the Python
    values the code manipulates and the exceptions its primitives raise,
    the row normalizer [_format_rows], the two graph searches
    [search_workflows_by_plugin] and [search_workflows_by_llm], the three
    SQL queries of [search_dify_credentials], the bearer-token middleware
    and the connection-pool singleton.  Definitions come first, theorems
    follow. *)

From Stdlib Require Import List String Ascii Bool Arith ZArith Lia.
From Stdlib Require Import Permutation Sorted DecimalString.
Import ListNotations.
Local Open Scope string_scope.
Local Open Scope list_scope.

Set Implicit Arguments.
Set Warnings "-register-all".

(* ------------------------------------------------------------------ *)
(** ** Exceptions and the error monad *)
(* ------------------------------------------------------------------ *)

(** The exceptions that the modelled fragment of Python can raise. *)
Inductive exn : Type :=
| AttributeError
| TypeError
| KeyError
| UnicodeDecodeError
| ConnectionError
| ValueError
| RecursionError.

(** A computation either returns a value or raises. *)
Inductive result (A : Type) : Type :=
| Ok (a : A)
| Raise (e : exn).

Arguments Ok {A} a.
Arguments Raise {A} e.

Definition bind {A B : Type} (m : result A) (k : A -> result B) : result B :=
  match m with
  | Ok a => k a
  | Raise e => Raise e
  end.

Notation "x <- m ;; k" := (bind m (fun x => k))
  (at level 61, m at next level, right associativity).

(** A [for] loop over a list that threads the loop's mutable variable and
    stops at the first exception. *)
Fixpoint for_each {S A : Type} (body : S -> A -> result S) (l : list A)
  (s : S) : result S :=
  match l with
  | [] => Ok s
  | a :: l' => s' <- body s a ;; for_each body l' s'
  end.

Definition is_ok {A : Type} (m : result A) : bool :=
  match m with Ok _ => true | Raise _ => false end.

(* ------------------------------------------------------------------ *)
(** ** Python values *)
(* ------------------------------------------------------------------ *)

(** The values that flow through the code: what [json.loads] produces,
    what an [asyncpg.Record] holds and what the tools build.  A [dict] is
    an association list in insertion order (lookups take the first
    binding of a key).  [VObj] stands for every other scalar object
    (a float, a UUID, a datetime, a Decimal): the code only observes its
    truth value and its [str()], which the constructor records.  A [str]
    is kept as the bytes of its UTF-8 encoding. *)
Inductive value : Type :=
| VNone
| VBool (b : bool)
| VInt (z : Z)
| VStr (s : string)
| VList (l : list value)
| VDict (d : list (string * value))
| VObj (truth : bool) (text : string).

Definition dict := list (string * value).

(** [d.get(k)] on the association list. *)
Fixpoint dict_lookup {V : Type} (d : list (string * V)) (k : string) : option V :=
  match d with
  | [] => None
  | (k', v) :: d' => if String.eqb k' k then Some v else dict_lookup d' k
  end.

(** [d[k] = v]: an existing key keeps its position, a new key goes last. *)
Fixpoint dict_set {V : Type} (d : list (string * V)) (k : string) (v : V)
  : list (string * V) :=
  match d with
  | [] => [(k, v)]
  | (k', v') :: d' =>
      if String.eqb k' k then (k', v) :: d' else (k', v') :: dict_set d' k v
  end.

(** [dict(pairs)]: the pairs are assigned from left to right. *)
Definition dict_of_pairs {V : Type} (pairs : list (string * V)) : list (string * V) :=
  fold_left (fun d kv => dict_set d (fst kv) (snd kv)) pairs [].

Definition dict_keys (d : dict) : list string := map fst d.

(** [x.get(k, dflt)]: only a dict has the method. *)
Definition py_get (x : value) (k : string) (dflt : value) : result value :=
  match x with
  | VDict d =>
      match dict_lookup d k with
      | Some v => Ok v
      | None => Ok dflt
      end
  | _ => Raise AttributeError
  end.

(** [bool(x)]. *)
Definition truthy (x : value) : bool :=
  match x with
  | VNone => false
  | VBool b => b
  | VInt z => negb (Z.eqb z 0)
  | VStr s => negb (String.eqb s "")
  | VList l => match l with [] => false | _ => true end
  | VDict d => match d with [] => false | _ => true end
  | VObj t _ => t
  end.

(** [isinstance(x, dict)] and [isinstance(x, (dict, list))]. *)
Definition is_dict (x : value) : bool :=
  match x with VDict _ => true | _ => false end.

Definition is_dict_or_list (x : value) : bool :=
  match x with VDict _ | VList _ => true | _ => false end.

(** [x != s] for a string literal [s]: a value of another type is never
    equal to a string. *)
Definition py_ne_str (x : value) (s : string) : bool :=
  match x with
  | VStr t => negb (String.eqb t s)
  | _ => true
  end.

(** [needle in hay] on strings. *)
Fixpoint contains (needle hay : string) : bool :=
  if String.prefix needle hay then true
  else match hay with
       | EmptyString => false
       | String _ hay' => contains needle hay'
       end.

(** Iteration by a [for] statement: a list yields its items, a dict its
    keys, a string its characters; anything else is not iterable. *)
Definition py_iter (x : value) : result (list value) :=
  match x with
  | VList l => Ok l
  | VDict d => Ok (map (fun kv => VStr (fst kv)) d)
  | VStr s => Ok (map (fun c => VStr (String c EmptyString)) (list_ascii_of_string s))
  | _ => Raise TypeError
  end.

(** [len(x)] of a list or a dict.  The length of a [str] counts code
    points, which the byte model of strings does not keep; the code never
    takes it. *)
Definition py_len (x : value) : result nat :=
  match x with
  | VList l => Ok (List.length l)
  | VDict d => Ok (List.length d)
  | _ => Raise TypeError
  end.

Definition string_of_Z (z : Z) : string := NilZero.string_of_int (Z.to_int z).
Definition string_of_nat (n : nat) : string := NilZero.string_of_uint (Nat.to_uint n).

(** An [asyncpg.Record]: column names with their values; [row[col]] raises
    [KeyError] for a column the record does not have. *)
Definition Record := list (string * value).

Definition record_get (row : Record) (col : string) : result value :=
  match dict_lookup row col with
  | Some v => Ok v
  | None => Raise KeyError
  end.

(** What [json.loads] does with a string: it returns the parsed value,
    raises [JSONDecodeError] on a syntax error, or raises something else,
    as it does with [ValueError] for an integer literal over the digit
    limit of the interpreter and with [RecursionError] for a document
    nested too deeply. *)
Inductive loads_outcome : Type :=
| Loaded (v : value)
| JSONDecodeError
| LoadsRaised (e : exn).

(* ------------------------------------------------------------------ *)
(** ** Library functions the code calls *)
(* ------------------------------------------------------------------ *)

Section Server.

Set Default Proof Using "Type".

(** [str.lower], Unicode-aware in Python. *)
Variable lower : string -> string.

(** [json.loads] on a string, with its three outcomes. *)
Variable json_loads : string -> loads_outcome.

(** [json.dumps(..., ensure_ascii=False, default=str, indent=2)]. *)
Variable json_dumps : value -> string.

(** [repr] of a list or a dict, which is what [str] gives for them. *)
Variable repr_struct : value -> string.

(** [str(x)]. *)
Definition py_str (x : value) : string :=
  match x with
  | VNone => "None"
  | VBool true => "True"
  | VBool false => "False"
  | VInt z => string_of_Z z
  | VStr s => s
  | VObj _ text => text
  | VList _ | VDict _ => repr_struct x
  end.

(** [x.lower()]: in the modelled fragment only a string has the method. *)
Definition py_lower (x : value) : result string :=
  match x with
  | VStr s => Ok (lower s)
  | _ => Raise AttributeError
  end.

(** [json.loads(x)] inside [try ... except (JSONDecodeError, TypeError)]:
    [Ok None] when either exception is caught ([TypeError] is what an
    argument that is not a string gives), [Raise] for an exception the
    clause lets through. *)
Definition try_json_loads (x : value) : result (option value) :=
  match x with
  | VStr s =>
      match json_loads s with
      | Loaded v => Ok (Some v)
      | JSONDecodeError => Ok None
      | LoadsRaised e => Raise e
      end
  | _ => Ok None
  end.

(* ---------------------------------------------------------------- *)
(** ** [_format_rows] *)
(* ---------------------------------------------------------------- *)

(** The value stored under a column. *)
Definition format_value (val : value) : value :=
  if is_dict_or_list val then val
  else match val with
       | VNone => VNone
       | _ => VStr (py_str val)
       end.

(** The inner loop: one column assigned into [item]. *)
Definition format_col (row : Record) (item : dict) (col : string) : result dict :=
  val <- record_get row col ;;
  Ok (dict_set item col (format_value val)).

(** The outer loop: one row appended to [results]. *)
Definition format_row (columns : list string) (results : list value)
  (row : Record) : result (list value) :=
  item <- for_each (format_col row) columns [] ;;
  Ok (results ++ [VDict item]).

Definition _format_rows (rows : list Record) (columns : list string)
  : result (list value) :=
  for_each (format_row columns) rows [].

(* ---------------------------------------------------------------- *)
(** ** The query executor *)
(* ---------------------------------------------------------------- *)

(** The SQL statements of the file.  The two graph searches send the
    same text. *)
Inductive sql : Type :=
| SelectProviderModelCredentials
| SelectToolBuiltinProviders
| SelectWorkflowsByEnvironment
| SelectWorkflowsByGraph.

(** [conn.fetch(query, pattern)] on a connection of the pool. *)
Variable fetch : sql -> string -> result (list Record).

(** [f"%{keyword}%"]. *)
Definition like_pattern (keyword : string) : string :=
  ("%" ++ keyword ++ "%")%string.

(** The result envelope every tool serializes. *)
Definition envelope (summary keyword : string) (results : value) : value :=
  VDict [("summary", VStr summary); ("keyword", VStr keyword);
         ("results", results)].

(* ---------------------------------------------------------------- *)
(** ** [search_dify_credentials] *)
(* ---------------------------------------------------------------- *)

(** [" | ".join(parts)]. *)
Fixpoint join (sep : string) (parts : list string) : string :=
  match parts with
  | [] => ""
  | [p] => p
  | p :: rest => (p ++ sep ++ join sep rest)%string
  end.

(** One part of the summary: the table's name and its number of rows. *)
Definition summary_part (summary_parts : list string) (entry : string * value)
  : result (list string) :=
  let (table, items) := entry in
  n <- py_len items ;;
  Ok (summary_parts ++
      [("[" ++ table ++ "] 找到 " ++ string_of_nat n ++ " 条记录")%string]).

Definition search_dify_credentials_output (keyword : string) : result value :=
  let pattern := like_pattern keyword in
  let results : dict := [] in
  rows <- fetch SelectProviderModelCredentials pattern ;;
  formatted <- _format_rows rows
    ["provider_name"; "model_name"; "model_type"; "encrypted_config";
     "created_at"; "updated_at"] ;;
  let results := dict_set results "provider_model_credentials" (VList formatted) in
  rows <- fetch SelectToolBuiltinProviders pattern ;;
  formatted <- _format_rows rows
    ["provider"; "encrypted_credentials"; "created_at"; "updated_at"] ;;
  let results := dict_set results "tool_builtin_providers" (VList formatted) in
  rows <- fetch SelectWorkflowsByEnvironment pattern ;;
  formatted <- _format_rows rows
    ["app_id"; "environment_variables"; "created_at"; "updated_at"] ;;
  let results := dict_set results "workflows" (VList formatted) in
  summary_parts <- for_each summary_part results [] ;;
  Ok (envelope (join " | " summary_parts) keyword (VDict results)).

Definition search_dify_credentials (keyword : string) : result string :=
  output <- search_dify_credentials_output keyword ;;
  Ok (json_dumps output).

(* ---------------------------------------------------------------- *)
(** ** [search_workflows_by_plugin] *)
(* ---------------------------------------------------------------- *)

(** The test [kw in a.lower() or kw in b.lower()]: the right operand is
    evaluated only when the left one is false. *)
Definition keyword_in_either (keyword_lower : string) (a b : value) : result bool :=
  la <- py_lower a ;;
  if contains keyword_lower la then Ok true
  else lb <- py_lower b ;; Ok (contains keyword_lower lb).

(** The title of a matched tool node, as the source writes it: the
    default of the outer [get] is itself a lookup through [node], and
    Python evaluates it before the call. *)
Definition tool_node_title (node data : value) : result value :=
  again <- py_get node "data" (VDict []) ;;
  dflt <- py_get again "title" (VStr "") ;;
  py_get data "title" dflt.

(** The body of [for node in nodes] in the plugin search. *)
Definition tool_node_body (keyword_lower : string) (matching_tools : list value)
  (node : value) : result (list value) :=
  data <- py_get node "data" (VDict []) ;;
  node_type <- py_get data "type" (VStr "") ;;
  if py_ne_str node_type "tool" then Ok matching_tools
  else
    provider_id <- py_get data "provider_id" (VStr "") ;;
    tool_name <- py_get data "tool_name" (VStr "") ;;
    hit <- keyword_in_either keyword_lower provider_id tool_name ;;
    if hit then
      node_id <- py_get node "id" (VStr "") ;;
      node_title <- tool_node_title node data ;;
      Ok (matching_tools ++
          [VDict [("node_id", node_id); ("node_title", node_title);
                  ("provider_id", provider_id); ("tool_name", tool_name)]])
    else Ok matching_tools.

(** [row["app_name"] or ""]. *)
Definition or_empty (x : value) : value := if truthy x then x else VStr "".

(** [str(x) if x else None]. *)
Definition str_or_none (x : value) : value :=
  if truthy x then VStr (py_str x) else VNone.

(** The entry appended for a workflow with matching nodes; [key] is
    ["matching_tools"] or ["matching_llms"]. *)
Definition workflow_entry (key : string) (row : Record) (matching : list value)
  : result value :=
  app_id <- record_get row "app_id" ;;
  app_name <- record_get row "app_name" ;;
  updated_at <- record_get row "updated_at" ;;
  Ok (VDict [("app_id", VStr (py_str app_id)); ("app_name", or_empty app_name);
             (key, VList matching); ("updated_at", str_or_none updated_at)]).

(** The Graph Node Matcher: the nodes of the document, then the node
    loop [node_body] over them from an empty match list. *)
Definition graph_nodes (graph : value) : result (list value) :=
  nodes <- py_get graph "nodes" (VList []) ;;
  py_iter nodes.

Definition match_nodes (node_body : list value -> value -> result (list value))
  (graph : value) : result (list value) :=
  items <- graph_nodes graph ;;
  for_each node_body items [].

(** The body of [for row in rows], shared by the two graph searches up
    to the node loop [node_body] and the key of the match list. *)
Definition workflow_row_body (key : string)
  (node_body : list value -> value -> result (list value))
  (results : list value) (row : Record) : result (list value) :=
  graph_str <- record_get row "graph" ;;
  if negb (truthy graph_str) then Ok results
  else
    parsed <- try_json_loads graph_str ;;
    match parsed with
    | None => Ok results
    | Some graph =>
        matching <- match_nodes node_body graph ;;
        if truthy (VList matching) then
          entry <- workflow_entry key row matching ;;
          Ok (results ++ [entry])
        else Ok results
    end.

(** The part of the plugin search that follows the query. *)
Definition plugin_results (plugin_keyword : string) (rows : list Record)
  : result (list value) :=
  let keyword_lower := lower plugin_keyword in
  for_each (workflow_row_body "matching_tools" (tool_node_body keyword_lower))
    rows [].

Definition search_workflows_by_plugin_output (plugin_keyword : string)
  : result value :=
  let pattern := like_pattern plugin_keyword in
  rows <- fetch SelectWorkflowsByGraph pattern ;;
  results <- plugin_results plugin_keyword rows ;;
  Ok (envelope
        ("找到 " ++ string_of_nat (List.length results)
         ++ " 个 workflow 使用了匹配 '" ++ plugin_keyword ++ "' 的 plugin")%string
        plugin_keyword (VList results)).

Definition search_workflows_by_plugin (plugin_keyword : string) : result string :=
  output <- search_workflows_by_plugin_output plugin_keyword ;;
  Ok (json_dumps output).

(* ---------------------------------------------------------------- *)
(** ** [search_workflows_by_llm] *)
(* ---------------------------------------------------------------- *)

(** [data.get("model", {}).get(inner, "") if isinstance(data.get("model"), dict)
     else str(data.get(outer, ""))]: the model name with [inner = "name"]
    and [outer = "model"], the provider with [inner = outer = "provider"]. *)
Definition llm_field (data : value) (inner outer : string) : result value :=
  probe <- py_get data "model" VNone ;;
  if is_dict probe then
    model <- py_get data "model" (VDict []) ;;
    py_get model inner (VStr "")
  else
    flat <- py_get data outer (VStr "") ;;
    Ok (VStr (py_str flat)).

(** The body of [for node in nodes] in the LLM search. *)
Definition llm_node_body (keyword_lower : string) (matching_llms : list value)
  (node : value) : result (list value) :=
  data <- py_get node "data" (VDict []) ;;
  node_type <- py_get data "type" (VStr "") ;;
  if py_ne_str node_type "llm" then Ok matching_llms
  else
    model_name <- llm_field data "name" "model" ;;
    provider <- llm_field data "provider" "provider" ;;
    hit <- keyword_in_either keyword_lower model_name provider ;;
    if hit then
      node_id <- py_get node "id" (VStr "") ;;
      node_title <- py_get data "title" (VStr "") ;;
      Ok (matching_llms ++
          [VDict [("node_id", node_id); ("node_title", node_title);
                  ("model", model_name); ("provider", provider)]])
    else Ok matching_llms.

(** The part of the LLM search that follows the query. *)
Definition llm_results (model_keyword : string) (rows : list Record)
  : result (list value) :=
  let keyword_lower := lower model_keyword in
  for_each (workflow_row_body "matching_llms" (llm_node_body keyword_lower))
    rows [].

Definition search_workflows_by_llm_output (model_keyword : string)
  : result value :=
  let pattern := like_pattern model_keyword in
  rows <- fetch SelectWorkflowsByGraph pattern ;;
  results <- llm_results model_keyword rows ;;
  Ok (envelope
        ("找到 " ++ string_of_nat (List.length results)
         ++ " 个 workflow 使用了匹配 '" ++ model_keyword ++ "' 的 LLM 模型")%string
        model_keyword (VList results)).

Definition search_workflows_by_llm (model_keyword : string) : result string :=
  output <- search_workflows_by_llm_output model_keyword ;;
  Ok (json_dumps output).

(* ------------------------------------------------------------------ *)
(** ** [APIKeyAuthMiddleware] *)
(* ------------------------------------------------------------------ *)

(** An ASGI connection scope: its type and, when the key is present, its
    headers as pairs of byte strings. *)
Record scope : Type := {
  scope_type : string;
  scope_headers : option (list (string * string))
}.

Definition byte_in (lo hi : N) (c : ascii) : bool :=
  (N.leb lo (N_of_ascii c) && N.leb (N_of_ascii c) hi)%bool.

Definition continuation (c : ascii) : bool := byte_in 128 191 c.

(** The second byte allowed after the lead byte of a three-byte and of a
    four-byte sequence: no overlong form, no surrogate, nothing above
    U+10FFFF. *)
Definition second_of_three (c1 c2 : ascii) : bool :=
  if N.eqb (N_of_ascii c1) 224 then byte_in 160 191 c2
  else if N.eqb (N_of_ascii c1) 237 then byte_in 128 159 c2
  else continuation c2.

Definition second_of_four (c1 c2 : ascii) : bool :=
  if N.eqb (N_of_ascii c1) 240 then byte_in 144 191 c2
  else if N.eqb (N_of_ascii c1) 244 then byte_in 128 143 c2
  else continuation c2.

(** Well-formed UTF-8, as the strict codec accepts it. *)
Fixpoint utf8_valid (b : string) : bool :=
  match b with
  | EmptyString => true
  | String c1 r1 =>
      if byte_in 0 127 c1 then utf8_valid r1
      else
        match r1 with
        | EmptyString => false
        | String c2 r2 =>
            if byte_in 194 223 c1 then continuation c2 && utf8_valid r2
            else
              match r2 with
              | EmptyString => false
              | String c3 r3 =>
                  if byte_in 224 239 c1 then
                    second_of_three c1 c2 && continuation c3 && utf8_valid r3
                  else
                    match r3 with
                    | EmptyString => false
                    | String c4 r4 =>
                        if byte_in 240 244 c1 then
                          second_of_four c1 c2 && continuation c3
                          && continuation c4 && utf8_valid r4
                        else false
                    end
              end
        end
  end.

(** [b.decode()]: the text is kept as its UTF-8 bytes, so decoding is the
    identity on well-formed input and raises on the rest. *)
Definition bytes_decode (b : string) : result string :=
  if utf8_valid b then Ok b else Raise UnicodeDecodeError.

(** What [__call__] does with a connection: hand it to the wrapped
    application, or answer it with a [JSONResponse]. *)
Inductive outcome : Type :=
| Forward (sc : scope)
| Respond (status_code : nat) (content : value).

(** [__init__]: [os.environ.get("MCP_API_KEY", "")]. *)
Definition middleware_init (env_MCP_API_KEY : option string) : string :=
  match env_MCP_API_KEY with
  | Some key => key
  | None => ""
  end.

Definition unauthorized : outcome :=
  Respond 401 (VDict [("error", VStr "Unauthorized");
                      ("message", VStr "Invalid or missing API key")]).

(** [__call__]. *)
Definition middleware_call (api_key : string) (sc : scope) : result outcome :=
  if negb (String.eqb (scope_type sc) "http" || String.eqb (scope_type sc) "websocket")
  then Ok (Forward sc)
  else if negb (truthy (VStr api_key)) then Ok (Forward sc)
  else
    let headers :=
      dict_of_pairs (match scope_headers sc with Some h => h | None => [] end) in
    let raw :=
      match dict_lookup headers "authorization" with
      | Some v => v
      | None => ""
      end in
    auth_value <- bytes_decode raw ;;
    if negb (String.eqb auth_value ("Bearer " ++ api_key)%string)
    then Ok unauthorized
    else Ok (Forward sc).

(** The connection is HTTP or WebSocket. *)
Definition http_shaped (sc : scope) : bool :=
  String.eqb (scope_type sc) "http" || String.eqb (scope_type sc) "websocket".

(** The bytes of the [authorization] header as [__call__] reads them. *)
Definition authorization_of (sc : scope) : string :=
  match dict_lookup
          (dict_of_pairs (match scope_headers sc with Some h => h | None => [] end))
          "authorization" with
  | Some v => v
  | None => ""
  end.

(* ------------------------------------------------------------------ *)
(** ** The connection pool: [get_pool] and [close_pool] *)
(* ------------------------------------------------------------------ *)

Record DbConfig : Type := {
  host : string;
  port : Z;
  user : string;
  password : string;
  database : string
}.

(** A pool object: the model numbers the pools in the order of their
    creation, which gives each its identity. *)
Record pool : Type := {
  pool_id : nat;
  pool_config : DbConfig;
  min_size : nat;
  max_size : nat
}.

(** The state of the process as the two functions see it: the global
    [_pool], the number of pools created so far and the pools on which
    [close] ran. *)
Record process : Type := {
  _pool : option pool;
  created : nat;
  closed : list nat
}.

Definition process_start : process :=
  {| _pool := None; created := 0; closed := [] |}.

(** Whether [asyncpg.create_pool] can reach the database. *)
Variable can_connect : DbConfig -> bool.

Definition create_pool (cfg : DbConfig) (lo hi : nat) (w : process)
  : result pool * process :=
  if can_connect cfg then
    (Ok {| pool_id := created w; pool_config := cfg; min_size := lo; max_size := hi |},
     {| _pool := _pool w; created := S (created w); closed := closed w |})
  else (Raise ConnectionError, w).

(** [get_pool], as a call that runs from its first statement to its
    [return] with no other coroutine in between.  The source is
    suspended at [await asyncpg.create_pool(...)], between the test
    [_pool is None] and the assignment to [_pool]: [get_pool_enter] and
    [get_pool_resume] below are the two halves of a call, for runs in
    which calls overlap. *)
Definition get_pool (cfg : DbConfig) (w : process) : result pool * process :=
  match _pool w with
  | None =>
      match create_pool cfg 1 5 w with
      | (Ok p, w') =>
          (Ok p, {| _pool := Some p; created := created w'; closed := closed w' |})
      | (Raise e, w') => (Raise e, w')
      end
  | Some p => (Ok p, w)
  end.

Definition close_pool (w : process) : process :=
  match _pool w with
  | Some p =>
      {| _pool := None; created := created w; closed := pool_id p :: closed w |}
  | None => w
  end.

(** A call of [get_pool] up to its [await]: it returns the pool it
    finds, or it finds none and is suspended in [create_pool]. *)
Inductive entered : Type :=
| Returns (p : pool)
| Awaits (cfg : DbConfig).

Definition get_pool_enter (cfg : DbConfig) (w : process) : entered :=
  match _pool w with
  | Some p => Returns p
  | None => Awaits cfg
  end.

(** The same call from its [await] on: the pool is created, assigned to
    [_pool] whatever [_pool] holds by then, and returned; an exception of
    [create_pool] leaves [_pool] as it is. *)
Definition get_pool_resume (cfg : DbConfig) (w : process) : result pool * process :=
  match create_pool cfg 1 5 w with
  | (Ok p, w') =>
      (Ok p, {| _pool := Some p; created := created w'; closed := closed w' |})
  | (Raise e, w') => (Raise e, w')
  end.

(** The event loop seen from the pool: numbered calls of [get_pool] that
    enter and, when they were suspended, resume later in any order, and
    [close_pool]. *)
Inductive pool_event : Type :=
| Enter (call : nat) (cfg : DbConfig)
| Resume (call : nat)
| Shutdown.

(** The process, the suspended calls with their configuration, and what
    the finished calls returned, oldest first. *)
Record event_loop : Type := {
  loop_process : process;
  suspended : list (nat * DbConfig);
  returned : list (nat * result pool)
}.

Fixpoint suspended_config (call : nat) (l : list (nat * DbConfig)) : option DbConfig :=
  match l with
  | [] => None
  | (c, cfg) :: l' => if Nat.eqb c call then Some cfg else suspended_config call l'
  end.

Definition loop_step (s : event_loop) (e : pool_event) : event_loop :=
  match e with
  | Enter call cfg =>
      match get_pool_enter cfg (loop_process s) with
      | Returns p =>
          {| loop_process := loop_process s;
             suspended := suspended s;
             returned := returned s ++ [(call, Ok p)] |}
      | Awaits c =>
          {| loop_process := loop_process s;
             suspended := suspended s ++ [(call, c)];
             returned := returned s |}
      end
  | Resume call =>
      match suspended_config call (suspended s) with
      | Some cfg =>
          let (r, w') := get_pool_resume cfg (loop_process s) in
          {| loop_process := w';
             suspended := filter (fun c => negb (Nat.eqb (fst c) call)) (suspended s);
             returned := returned s ++ [(call, r)] |}
      | None => s
      end
  | Shutdown =>
      {| loop_process := close_pool (loop_process s);
         suspended := suspended s;
         returned := returned s |}
  end.

Definition loop_run (events : list pool_event) (s : event_loop) : event_loop :=
  fold_left loop_step events s.

Definition loop_start : event_loop :=
  {| loop_process := process_start; suspended := []; returned := [] |}.

(** The states the specification names. *)
Inductive lifecycle : Type :=
| Uninitialized
| Active (p : pool).

Definition lifecycle_of (w : process) : lifecycle :=
  match _pool w with
  | None => Uninitialized
  | Some p => Active p
  end.

(** The calls a process makes on the pool, and a run of them. *)
Inductive pool_call : Type :=
| Acquire (cfg : DbConfig)
| Teardown.

Definition pool_step (w : process) (c : pool_call) : process :=
  match c with
  | Acquire cfg => snd (get_pool cfg w)
  | Teardown => close_pool w
  end.

Definition pool_run (calls : list pool_call) (w : process) : process :=
  fold_left pool_step calls w.

(** The pools returned by acquiring once per configuration, in order. *)
Fixpoint acquire_all (cfgs : list DbConfig) (w : process)
  : list (result pool) * process :=
  match cfgs with
  | [] => ([], w)
  | cfg :: rest =>
      let (r, w') := get_pool cfg w in
      let (rs, w'') := acquire_all rest w' in
      (r :: rs, w'')
  end.

(** What every reachable state satisfies: the live pool and the closed
    ones were created by this process, and the live pool is not closed. *)
Definition pool_wf (w : process) : Prop :=
  (forall p, _pool w = Some p ->
     pool_id p < created w /\ ~ In (pool_id p) (closed w))
  /\ (forall i, In i (closed w) -> i < created w).

(* ------------------------------------------------------------------ *)
(** ** The SQL statements of [search_dify_credentials] *)
(* ------------------------------------------------------------------ *)

(** The statements are text handed to PostgreSQL; their meaning is given
    here over tables as lists of rows, in the order the executor works:
    [WHERE], [ORDER BY], [DISTINCT ON], [LIMIT].  A nullable column is an
    [option], an identifier and a timestamp are integers with their
    order. *)

Record workflow : Type := {
  w_app_id : Z;
  w_environment_variables : option string;
  w_created_at : option Z;
  w_updated_at : option Z
}.

Record provider_model_credential : Type := {
  c_provider_name : string;
  c_model_name : string;
  c_model_type : string;
  c_encrypted_config : option string;
  c_credential_name : option string;
  c_created_at : option Z;
  c_updated_at : option Z
}.

Record tool_builtin_provider : Type := {
  t_provider : string;
  t_encrypted_credentials : option string;
  t_created_at : option Z;
  t_updated_at : option Z
}.

(** [text ILIKE pattern] on two non-null strings. *)
Variable ilike : string -> string -> bool.

(** A [WHERE] condition keeps a row only when it is true: a null operand
    makes [ILIKE] unknown, and unknown [OR] true is true. *)
Definition where_ilike (text : option string) (pattern : string) : bool :=
  match text with
  | Some t => ilike t pattern
  | None => false
  end.

(** [a] sorts no later than [b] under [DESC]: nulls come first. *)
Definition desc_le (a b : option Z) : bool :=
  match a, b with
  | None, _ => true
  | Some _, None => false
  | Some x, Some y => Z.leb y x
  end.

(** [ORDER BY w.app_id, w.updated_at DESC]. *)
Definition workflow_le (a b : workflow) : bool :=
  Z.ltb (w_app_id a) (w_app_id b)
  || (Z.eqb (w_app_id a) (w_app_id b) && desc_le (w_updated_at a) (w_updated_at b)).

(** [ORDER BY]: the rows sorted by insertion; rows that compare equal keep
    the order in which the table gives them. *)
Fixpoint insert_by {A : Type} (le : A -> A -> bool) (x : A) (l : list A) : list A :=
  match l with
  | [] => [x]
  | y :: l' => if le x y then x :: l else y :: insert_by le x l'
  end.

Definition order_by {A : Type} (le : A -> A -> bool) (l : list A) : list A :=
  fold_right (insert_by le) [] l.

(** [DISTINCT ON (key)]: the first row of each set of rows with equal
    key. *)
Fixpoint distinct_on {A : Type} (key : A -> Z) (l : list A) : list A :=
  match l with
  | [] => []
  | x :: l' =>
      x :: filter (fun y => negb (Z.eqb (key y) (key x))) (distinct_on key l')
  end.

(** [LIMIT n]. *)
Definition limit {A : Type} (n : nat) (l : list A) : list A := firstn n l.

(** Statement 3: the workflows whose environment variables match. *)
Definition select_workflows_by_environment (table : list workflow)
  (pattern : string) : list workflow :=
  limit 50
    (distinct_on w_app_id
       (order_by workflow_le
          (filter (fun w => where_ilike (w_environment_variables w) pattern) table))).

(** Statement 1. *)
Definition select_provider_model_credentials
  (table : list provider_model_credential) (pattern : string)
  : list provider_model_credential :=
  limit 50
    (order_by (fun a b => desc_le (c_updated_at a) (c_updated_at b))
       (filter (fun c => where_ilike (c_encrypted_config c) pattern
                         || where_ilike (c_credential_name c) pattern) table)).

(** Statement 2. *)
Definition select_tool_builtin_providers (table : list tool_builtin_provider)
  (pattern : string) : list tool_builtin_provider :=
  limit 50
    (order_by (fun a b => desc_le (t_updated_at a) (t_updated_at b))
       (filter (fun t => where_ilike (t_encrypted_credentials t) pattern) table)).

(** A result set is in most-recently-updated order when every row is
    followed only by rows that [DESC] puts no earlier. *)
Definition most_recent_first {A : Type} (updated_at : A -> option Z) (l : list A)
  : Prop :=
  StronglySorted (fun a b => desc_le (updated_at a) (updated_at b) = true) l.

(** A result set is in ascending order of application identifier. *)
Definition by_application (l : list workflow) : Prop :=
  StronglySorted (fun a b => (w_app_id a < w_app_id b)%Z) l.

(* ------------------------------------------------------------------ *)
(** ** The vocabulary of the specification *)
(* ------------------------------------------------------------------ *)

(** The definitions below say, in the words of the specification, what
    the loops above are expected to compute; the theorems compare the
    two. *)

(** A field of a mapping, or the empty string when it is absent. *)
Definition field_or_empty (d : dict) (k : string) : value :=
  match dict_lookup d k with
  | Some v => v
  | None => VStr ""
  end.

(** The field is absent or holds a string. *)
Definition str_or_absent (d : dict) (k : string) : bool :=
  match dict_lookup d k with
  | None | Some (VStr _) => true
  | Some _ => false
  end.

(** The fields of a node, and those of its [data] (none when the node
    has no [data]); [None] when either is not a mapping. *)
Definition node_fields (node : value) : option dict :=
  match node with
  | VDict nd => Some nd
  | _ => None
  end.

Definition node_data (node : value) : option dict :=
  match node with
  | VDict nd =>
      match dict_lookup nd "data" with
      | None => Some []
      | Some (VDict d) => Some d
      | Some _ => None
      end
  | _ => None
  end.

(** [data.type] equals the kind. *)
Definition kind_is (d : dict) (kind : string) : bool :=
  match dict_lookup d "type" with
  | Some (VStr t) => String.eqb t kind
  | _ => false
  end.

(** The keyword, already lower-cased, is a substring of the lower-cased
    text of the field. *)
Definition text_has (keyword_lower : string) (field : value) : bool :=
  match field with
  | VStr s => contains keyword_lower (lower s)
  | _ => false
  end.

(** [needle] occurs in [hay]. *)
Definition substring_of (needle hay : string) : Prop :=
  exists before after : string, hay = (before ++ needle ++ after)%string.

(** A Tool Node qualifies by its [provider_id] or its [tool_name]. *)
Definition tool_qualifies (keyword_lower : string) (node : value) : bool :=
  match node_data node with
  | Some d =>
      kind_is d "tool"
      && (text_has keyword_lower (field_or_empty d "provider_id")
          || text_has keyword_lower (field_or_empty d "tool_name"))
  | None => false
  end.

Definition node_id_of (node : value) : value :=
  match node_fields node with
  | Some nd => field_or_empty nd "id"
  | None => VStr ""
  end.

Definition data_of (node : value) : dict :=
  match node_data node with
  | Some d => d
  | None => []
  end.

Definition tool_entry (node : value) : value :=
  VDict [("node_id", node_id_of node);
         ("node_title", field_or_empty (data_of node) "title");
         ("provider_id", field_or_empty (data_of node) "provider_id");
         ("tool_name", field_or_empty (data_of node) "tool_name")].

(** A node the plugin search can read: a mapping whose [data] is a
    mapping and, for a Tool Node, whose two candidate fields are strings
    or absent. *)
Definition tool_shaped (node : value) : bool :=
  match node_data node with
  | Some d =>
      if kind_is d "tool"
      then str_or_absent d "provider_id" && str_or_absent d "tool_name"
      else true
  | None => false
  end.

(** The resolved model name and provider of an LLM Node: read from the
    nested mapping when [model] is one, from the top-level [model] and
    [provider] through [str] otherwise. *)
Definition llm_resolved (d : dict) : value * value :=
  match dict_lookup d "model" with
  | Some (VDict m) => (field_or_empty m "name", field_or_empty m "provider")
  | _ => (VStr (py_str (field_or_empty d "model")),
          VStr (py_str (field_or_empty d "provider")))
  end.

Definition llm_qualifies (keyword_lower : string) (node : value) : bool :=
  match node_data node with
  | Some d =>
      kind_is d "llm"
      && (text_has keyword_lower (fst (llm_resolved d))
          || text_has keyword_lower (snd (llm_resolved d)))
  | None => false
  end.

Definition llm_entry (node : value) : value :=
  VDict [("node_id", node_id_of node);
         ("node_title", field_or_empty (data_of node) "title");
         ("model", fst (llm_resolved (data_of node)));
         ("provider", snd (llm_resolved (data_of node)))].

Definition llm_shaped (node : value) : bool :=
  match node_data node with
  | Some d =>
      if kind_is d "llm" then
        match dict_lookup d "model" with
        | Some (VDict m) => str_or_absent m "name" && str_or_absent m "provider"
        | _ => true
        end
      else true
  | None => false
  end.

(** The plugin node loop with the simple title lookup
    [data.get("title", "")] in place of the nested one. *)
Definition tool_node_body_simple (keyword_lower : string)
  (matching_tools : list value) (node : value) : result (list value) :=
  data <- py_get node "data" (VDict []) ;;
  node_type <- py_get data "type" (VStr "") ;;
  if py_ne_str node_type "tool" then Ok matching_tools
  else
    provider_id <- py_get data "provider_id" (VStr "") ;;
    tool_name <- py_get data "tool_name" (VStr "") ;;
    hit <- keyword_in_either keyword_lower provider_id tool_name ;;
    if hit then
      node_id <- py_get node "id" (VStr "") ;;
      node_title <- py_get data "title" (VStr "") ;;
      Ok (matching_tools ++
          [VDict [("node_id", node_id); ("node_title", node_title);
                  ("provider_id", provider_id); ("tool_name", tool_name)]])
    else Ok matching_tools.

(** The value rule of the Row Normalizer. *)
Definition normalized (val : value) : value :=
  match val with
  | VNone => VNone
  | VDict _ | VList _ => val
  | _ => VStr (py_str val)
  end.

(** A row has every projected column. *)
Definition has_columns (columns : list string) (row : Record) : Prop :=
  forall col, In col columns -> dict_lookup row col <> None.

(** An output dictionary is the projection of its row. *)
Definition projects (columns : list string) (row : Record) (item : dict) : Prop :=
  dict_keys item = columns
  /\ forall col val, In col columns -> dict_lookup row col = Some val ->
       dict_lookup item col = Some (normalized val).

(* ------------------------------------------------------------------ *)
(** ** Instances for the examples *)
(* ------------------------------------------------------------------ *)

(** [str.lower] on ASCII text. *)
Definition lower_ascii (c : ascii) : ascii :=
  let n := N_of_ascii c in
  if (N.leb 65 n && N.leb n 90)%bool then ascii_of_N (n + 32) else c.

Fixpoint ascii_lower (s : string) : string :=
  match s with
  | EmptyString => EmptyString
  | String c r => String (lower_ascii c) (ascii_lower r)
  end.

(** [json.loads] restricted to a finite table of documents: a text
    outside the table is a syntax error. *)
Definition loads_from (documents : list (string * value)) (s : string)
  : loads_outcome :=
  match dict_lookup documents s with
  | Some v => Loaded v
  | None => JSONDecodeError
  end.

(** [str] of a list or a dict, left out of the examples. *)
Definition repr_elided (x : value) : string := "<repr>".

(** [json.dumps], left out of the examples. *)
Definition dumps_elided (x : value) : string := "<json>".

(** [ILIKE] for a pattern [%keyword%] whose keyword is ASCII text without
    wildcard characters. *)
Definition ilike_plain (text pattern : string) : bool :=
  contains (ascii_lower (substring 1 (String.length pattern - 2) pattern))
    (ascii_lower text).

(** The nodes of the end-to-end scenarios, and nodes with fields missing
    or of another shape. *)
Definition search_tool_node : value :=
  VDict [("id", VStr "n1");
         ("data", VDict [("type", VStr "tool"); ("provider_id", VStr "google_search");
                         ("tool_name", VStr "search"); ("title", VStr "Search")])].

Definition claude_llm_node : value :=
  VDict [("data", VDict [("type", VStr "llm");
                         ("model", VDict [("name", VStr "claude-3");
                                          ("provider", VStr "anthropic")]);
                         ("title", VStr "LLM")])].

Definition flat_llm_node : value :=
  VDict [("id", VStr "n3");
         ("data", VDict [("type", VStr "llm"); ("model", VStr "gpt-4");
                         ("provider", VStr "openai")])].

Definition bare_tool_node : value := VDict [("data", VDict [("type", VStr "tool")])].

Definition bare_llm_node : value := VDict [("data", VDict [("type", VStr "llm")])].

Definition null_provider_tool_node : value :=
  VDict [("id", VStr "n4");
         ("data", VDict [("type", VStr "tool"); ("provider_id", VNone);
                         ("tool_name", VStr "search")])].

Definition numeric_name_llm_node : value :=
  VDict [("id", VStr "n5");
         ("data", VDict [("type", VStr "llm");
                         ("model", VDict [("name", VInt 4);
                                          ("provider", VStr "openai")])])].

Definition sample_graph : value :=
  VDict [("nodes", VList [search_tool_node; claude_llm_node; flat_llm_node])].

(** The documents [json.loads] knows in the examples, under a name that
    stands for their text. *)
Definition sample_documents : list (string * value) :=
  [("<graph of app 1>", sample_graph);
   ("<graph of app 2>", VDict [("nodes", VList [])])].

(** Rows as the graph query returns them. *)
Definition workflow_record (app_id app_name graph : value) : Record :=
  [("app_id", app_id); ("app_name", app_name); ("graph", graph);
   ("created_at", VObj true "2024-01-01 00:00:00");
   ("updated_at", VObj true "2024-01-02 00:00:00")].

Definition row_app1 : Record :=
  workflow_record (VObj true "app-1") (VStr "Search app") (VStr "<graph of app 1>").

Definition row_null_graph : Record :=
  workflow_record (VObj true "app-3") VNone VNone.

Definition row_truncated_graph : Record :=
  workflow_record (VObj true "app-4") (VStr "Broken") (VStr "{").

Definition sample_fetch (query : sql) (pattern : string) : result (list Record) :=
  match query with
  | SelectWorkflowsByGraph => Ok [row_app1; row_truncated_graph; row_null_graph]
  | _ => Ok []
  end.

(** Two rows with the same three columns in different orders. *)
Definition sample_rows : list Record :=
  [[("a", VInt 1); ("b", VNone); ("c", VList [VInt 2])];
   [("c", VObj true "2024-01-02"); ("b", VStr "x"); ("a", VDict [])]].

(** Three workflow versions, two of them of application 7. *)
Definition workflow_v (app_id updated_at : Z) : workflow :=
  {| w_app_id := app_id;
     w_environment_variables := Some "API_KEY=abc";
     w_created_at := Some 1%Z;
     w_updated_at := Some updated_at |}.

Definition sample_workflows : list workflow :=
  [workflow_v 7 20; workflow_v 9 30; workflow_v 7 25].

Definition local_config : DbConfig :=
  {| host := "localhost"; port := 5432; user := "postgres"; password := "";
     database := "dify" |}.


(* ------------------------------------------------------------------ *)
(** ** [_get_db_config], the prologue of the tools and [server_lifespan] *)
(* ------------------------------------------------------------------ *)

Section Startup.

(** [int(s)] on a string: [None] is [ValueError]. *)
Variable py_int : string -> option Z.

(** [os.environ.get(name, dflt)] on the environment as a mapping. *)
Definition environ_get (environ : list (string * string)) (name dflt : string)
  : string :=
  match dict_lookup environ name with
  | Some v => v
  | None => dflt
  end.

(** [_get_db_config]: [None] is the [ValueError] of [int]. *)
Definition _get_db_config (environ : list (string * string)) : option DbConfig :=
  let h := environ_get environ "DB_HOST" "localhost" in
  match py_int (environ_get environ "DB_PORT" "5432") with
  | Some p =>
      Some {| host := h;
              port := p;
              user := environ_get environ "DB_USER" "postgres";
              password := environ_get environ "DB_PASSWORD" "";
              database := environ_get environ "DB_DATABASE" "dify" |}
  | None => None
  end.

(** How a call of a tool ends: with its result, with the [ValueError] of
    the configuration, or with another exception. *)
Inductive call_result (A : Type) : Type :=
| Returned (a : A)
| ConfigError
| Failed (e : exn).

#[global] Arguments Returned {A} a.
#[global] Arguments ConfigError {A}.
#[global] Arguments Failed {A} e.

(** The two statements every tool starts with,
    [cfg = _get_db_config()] and [pool = await get_pool(cfg)], followed by
    the rest of the tool, [rest], which runs on the pool. *)
Definition tool_call {A : Type} (environ : list (string * string)) (w : process)
  (rest : result A) : call_result A * process :=
  match _get_db_config environ with
  | None => (ConfigError, w)
  | Some cfg =>
      match get_pool cfg w with
      | (Ok _, w') =>
          (match rest with Ok a => Returned a | Raise e => Failed e end, w')
      | (Raise e, w') => (Failed e, w')
      end
  end.





End Startup.

(* ------------------------------------------------------------------ *)
(** ** More vocabulary *)
(* ------------------------------------------------------------------ *)

(** The row has no value for one of the columns. *)
Definition lacks_column (columns : list string) (row : Record) : Prop :=
  exists col, In col columns /\ dict_lookup row col = None.

(** The names of a list without their repetitions, each at its first
    place. *)
Fixpoint first_occurrences (names : list string) : list string :=
  match names with
  | [] => []
  | x :: rest =>
      x :: filter (fun y => negb (String.eqb y x)) (first_occurrences rest)
  end.

(** [name] is not one of [names]. *)
Definition fresh_among (names : list string) (name : string) : bool :=
  negb (existsb (String.eqb name) names).

(** [None], a string, a mapping or a list. *)
Definition plain_value (x : value) : bool :=
  match x with
  | VNone | VStr _ | VDict _ | VList _ => true
  | _ => false
  end.

(** [l1] is [l2] with some items left out. *)
Inductive subsequence {A : Type} : list A -> list A -> Prop :=
| subsequence_nil : subsequence [] []
| subsequence_keep (x : A) (l1 l2 : list A) :
    subsequence l1 l2 -> subsequence (x :: l1) (x :: l2)
| subsequence_drop (x : A) (l1 l2 : list A) :
    subsequence l1 l2 -> subsequence l1 (x :: l2).

(** A document whose nodes are the given list. *)
Definition document (nodes : list value) : value := VDict [("nodes", VList nodes)].

(** No header of the list is named [authorization]. *)
Definition no_authorization (headers : list (string * string)) : Prop :=
  forall kv, In kv headers -> fst kv <> "authorization".

(** The three columns projections of [search_dify_credentials]. *)
Definition credential_columns : list string :=
  ["provider_name"; "model_name"; "model_type"; "encrypted_config";
   "created_at"; "updated_at"].

Definition tool_provider_columns : list string :=
  ["provider"; "encrypted_credentials"; "created_at"; "updated_at"].

Definition workflow_columns : list string :=
  ["app_id"; "environment_variables"; "created_at"; "updated_at"].

(** [int] on the decimal texts the examples use. *)
Definition int_of_sample (s : string) : option Z :=
  if String.eqb s "5432" then Some 5432%Z
  else if String.eqb s "6543" then Some 6543%Z
  else None.

(** A part of the summary of [search_dify_credentials]. *)
Definition count_line (table : string) (n : nat) : string :=
  ("[" ++ table ++ "] 找到 " ++ string_of_nat n ++ " 条记录")%string.

(** Every pool created so far is the live one or is closed, and no pool
    was closed twice. *)
Definition pool_accounted (w : process) : Prop :=
  NoDup (closed w)
  /\ forall i, i < created w ->
       In i (closed w) \/ exists p, _pool w = Some p /\ pool_id p = i.


(** More nodes, documents, rows and queries for the examples. *)
Definition numeric_tool_name_node : value :=
  VDict [("id", VStr "n7");
         ("data", VDict [("type", VStr "tool"); ("provider_id", VStr "google_search");
                         ("tool_name", VInt 3)])].

Definition null_model_llm_node : value :=
  VDict [("id", VStr "n6");
         ("data", VDict [("type", VStr "llm"); ("model", VNone);
                         ("provider", VStr "openai")])].

Definition more_documents : list (string * value) :=
  ("<a list>", VList [VInt 1]) :: sample_documents.

Definition row_list_graph : Record :=
  workflow_record (VObj true "app-5") (VStr "List") (VStr "<a list>").

Definition credential_record : Record :=
  [("provider_name", VStr "openai"); ("model_name", VStr "gpt-4");
   ("model_type", VStr "llm"); ("encrypted_config", VStr "openai-key-xyz");
   ("created_at", VObj true "2024-01-01 00:00:00");
   ("updated_at", VObj true "2024-01-02 00:00:00")].

Definition credential_fetch (query : sql) (pattern : string) : result (list Record) :=
  match query with
  | SelectProviderModelCredentials => Ok [credential_record]
  | _ => Ok []
  end.

Definition tool_providers_down (query : sql) (pattern : string)
  : result (list Record) :=
  match query with
  | SelectToolBuiltinProviders => Raise ConnectionError
  | SelectProviderModelCredentials => Ok [credential_record]
  | _ => Ok []
  end.

Definition two_credentials_scope : scope :=
  {| scope_type := "http";
     scope_headers := Some [("authorization", "Bearer old"); ("host", "dify");
                            ("authorization", "Bearer s3cret");
                            ("accept", "text/event-stream")] |}.

Definition capitalized_header_scope : scope :=
  {| scope_type := "http";
     scope_headers := Some [("Authorization", "Bearer s3cret")] |}.

Definition remote_config : DbConfig :=
  {| host := "db.internal"; port := 6543; user := "dify"; password := "pw";
     database := "dify" |}.

(** Only the local database answers. *)
Definition local_only (cfg : DbConfig) : bool := String.eqb (host cfg) "localhost".

Definition credential_v (name : option string) (updated_at : option Z)
  : provider_model_credential :=
  {| c_provider_name := "openai"; c_model_name := "gpt-4"; c_model_type := "llm";
     c_encrypted_config := Some "api_key=abc"; c_credential_name := name;
     c_created_at := Some 1%Z; c_updated_at := updated_at |}.

Definition sample_credentials : list provider_model_credential :=
  [credential_v None (Some 5%Z); credential_v (Some "main") None;
   credential_v (Some "spare") (Some 9%Z)].

Definition lifespan_scope : scope :=
  {| scope_type := "lifespan"; scope_headers := None |}.

Definition wrong_credential_scope : scope :=
  {| scope_type := "websocket";
     scope_headers := Some [("authorization", "bearer s3cret")] |}.

(** A text of [n] digits ["1"]. *)
Fixpoint ones (n : nat) : string :=
  match n with
  | O => EmptyString
  | S n' => String "1" (ones n')
  end.

Fixpoint all_digits (s : string) : bool :=
  match s with
  | EmptyString => true
  | String c r => byte_in 48 57 c && all_digits r
  end.

(** [json.loads] on the documents of the examples, with the limit of
    4300 digits that [int] puts on an integer literal. *)
Definition loads_with_digit_limit (s : string) : loads_outcome :=
  if all_digits s && Nat.ltb 4300 (String.length s) then LoadsRaised ValueError
  else loads_from sample_documents s.

Definition row_huge_integer : Record :=
  workflow_record (VObj true "app-6") (VStr "Big") (VStr (ones 4301)).

(** Fifty-one applications, numbered 1 to 51 and updated in that order,
    and an older version of the last one. *)
Definition fifty_one_applications : list workflow :=
  workflow_v 51 0
  :: map (fun i => workflow_v (Z.of_nat i) (Z.of_nat i)) (seq 1 51).

(* ------------------------------------------------------------------ *)
(** ** Loops, lookups and substrings *)
(* ------------------------------------------------------------------ *)

(** Propositional reasoning that leaves the library functions of the
    section out of the proof. *)
Ltac prop :=
  try clear lower; try clear json_loads; try clear json_dumps;
  try clear repr_struct; try clear fetch; try clear can_connect;
  try clear ilike; tauto.

Lemma bind_ok {A B : Type} (m : result A) (k : A -> result B) (b : B) :
  bind m k = Ok b -> exists a, m = Ok a /\ k a = Ok b.
Proof.
  destruct m as [a|e]; simpl; intros H; [eauto | discriminate].
Qed.

Lemma for_each_app {S A : Type} (body : S -> A -> result S) (l1 l2 : list A) (s : S) :
  for_each body (l1 ++ l2) s = (s' <- for_each body l1 s ;; for_each body l2 s').
Proof.
  revert s; induction l1 as [|a l1 IH]; intros s; simpl; [reflexivity|].
  destruct (body s a) as [s'|e]; simpl; [apply IH | reflexivity].
Qed.

(** A loop whose body either appends one entry or leaves the list alone
    computes a filter followed by a map. *)
Lemma for_each_filter_map {A : Type} (body : list value -> A -> result (list value))
  (keep : A -> bool) (entry : A -> value) :
  (forall acc a acc', body acc a = Ok acc' ->
     acc' = if keep a then acc ++ [entry a] else acc) ->
  forall l acc out, for_each body l acc = Ok out ->
    out = acc ++ map entry (filter keep l).
Proof.
  intros Hbody l; induction l as [|a l IH]; intros acc out H; simpl in *.
  - inversion H; subst; now rewrite app_nil_r.
  - apply bind_ok in H as (acc' & Ha & Hrest).
    apply Hbody in Ha; apply IH in Hrest; subst.
    destruct (keep a); simpl; [now rewrite <- app_assoc | reflexivity].
Qed.

Lemma for_each_all_ok {S A : Type} (body : S -> A -> result S) (good : A -> bool) :
  (forall s a, good a = true -> is_ok (body s a) = true) ->
  forall l s, forallb good l = true -> is_ok (for_each body l s) = true.
Proof.
  intros Hbody l; induction l as [|a l IH]; intros s H; simpl in *; [reflexivity|].
  apply andb_true_iff in H as [Ha Hl].
  specialize (Hbody s a Ha); destruct (body s a) as [s'|e]; simpl in *;
    [now apply IH | discriminate].
Qed.

Lemma for_each_raises_at {S A : Type} (body : S -> A -> result S)
  (pre post : list A) (a : A) (s s' : S) (e : exn) :
  for_each body pre s = Ok s' -> body s' a = Raise e ->
  for_each body (pre ++ a :: post) s = Raise e.
Proof.
  intros Hpre Ha; rewrite for_each_app, Hpre; simpl; now rewrite Ha.
Qed.

Lemma prefix_spec (a b : string) :
  String.prefix a b = true <-> exists q : string, b = (a ++ q)%string.
Proof.
  revert b; induction a as [|c a IH]; intros b.
  - split; [intros _; now exists b | intros _; destruct b; reflexivity].
  - destruct b as [|c' b]; simpl.
    + split; [discriminate | intros [q Hq]; discriminate].
    + destruct (Ascii.ascii_dec c c') as [E|Hne].
      * subst c'; split.
        -- intros H; apply IH in H as [q ->]; now exists q.
        -- intros [q Hq]; apply IH; exists q; congruence.
      * split; [discriminate | intros [q Hq]; congruence].
Qed.

Lemma contains_unfold (a b : string) :
  contains a b =
  if String.prefix a b then true
  else match b with
       | EmptyString => false
       | String _ b' => contains a b'
       end.
Proof. destruct b; reflexivity. Qed.

(** [contains] decides the substring relation. *)
Lemma contains_spec (a b : string) : contains a b = true <-> substring_of a b.
Proof.
  unfold substring_of; split.
  - induction b as [|c b IH]; rewrite contains_unfold;
      destruct (String.prefix a _) eqn:P.
    + intros _; apply prefix_spec in P as [q ->]; now exists EmptyString, q.
    + discriminate.
    + intros _; apply prefix_spec in P as [q ->]; now exists EmptyString, q.
    + intros H; destruct (IH H) as (p & q & ->); now exists (String c p), q.
  - intros (p & q & ->); induction p as [|c p IH]; rewrite contains_unfold.
    + simpl; replace (String.prefix a (a ++ q)) with true; [reflexivity|].
      symmetry; apply prefix_spec; now exists q.
    + destruct (String.prefix a _); [reflexivity | exact IH].
Qed.

(* ------------------------------------------------------------------ *)
(** ** The node loops *)
(* ------------------------------------------------------------------ *)

Lemma py_get_dict (d : dict) (k : string) (dflt : value) :
  py_get (VDict d) k dflt =
  Ok (match dict_lookup d k with Some v => v | None => dflt end).
Proof. simpl; now destruct (dict_lookup d k). Qed.

Lemma py_get_field (d : dict) (k : string) :
  py_get (VDict d) k (VStr "") = Ok (field_or_empty d k).
Proof. apply py_get_dict. Qed.

Lemma field_or_empty_absent (d : dict) (k : string) :
  dict_lookup d k = None -> field_or_empty d k = VStr "".
Proof. unfold field_or_empty; now intros ->. Qed.

Lemma str_or_absent_text (d : dict) (k : string) :
  str_or_absent d k = true -> exists s, field_or_empty d k = VStr s.
Proof.
  unfold str_or_absent, field_or_empty.
  destruct (dict_lookup d k) as [[]|]; try discriminate; eauto.
Qed.

Lemma py_ne_str_tool (d : dict) :
  py_ne_str (field_or_empty d "type") "tool" = negb (kind_is d "tool").
Proof.
  unfold field_or_empty, kind_is.
  destruct (dict_lookup d "type") as [[]|]; reflexivity.
Qed.

Lemma py_ne_str_llm (d : dict) :
  py_ne_str (field_or_empty d "type") "llm" = negb (kind_is d "llm").
Proof.
  unfold field_or_empty, kind_is.
  destruct (dict_lookup d "type") as [[]|]; reflexivity.
Qed.

(** What the first statement of both loops, [data = node.get("data", {})],
    leaves to the rest: the node's [data] when node and data are
    mappings, [AttributeError] at the first use otherwise. *)
Lemma node_data_some (node : value) (d : dict) :
  node_data node = Some d ->
  exists nd, node = VDict nd /\ py_get node "data" (VDict []) = Ok (VDict d).
Proof.
  destruct node as [| | | |l|nd|]; simpl; try discriminate.
  destruct (dict_lookup nd "data") as [[]|]; try discriminate;
    intros [= <-]; eauto.
Qed.

Lemma tool_node_body_none (kwl : string) (acc : list value) (node : value) :
  node_data node = None -> tool_node_body kwl acc node = Raise AttributeError.
Proof.
  unfold tool_node_body; destruct node as [| | | |l|nd|]; simpl; try reflexivity.
  destruct (dict_lookup nd "data") as [[]|]; try discriminate; reflexivity.
Qed.

Lemma llm_node_body_none (kwl : string) (acc : list value) (node : value) :
  node_data node = None -> llm_node_body kwl acc node = Raise AttributeError.
Proof.
  unfold llm_node_body; destruct node as [| | | |l|nd|]; simpl; try reflexivity.
  destruct (dict_lookup nd "data") as [[]|]; try discriminate; reflexivity.
Qed.

Lemma keyword_in_either_text (kwl a b : string) :
  keyword_in_either kwl (VStr a) (VStr b)
  = Ok (contains kwl (lower a) || contains kwl (lower b)).
Proof.
  unfold keyword_in_either; simpl.
  now destruct (contains kwl (lower a)).
Qed.

Lemma keyword_in_either_ok (kwl : string) (a b : value) (hit : bool) :
  keyword_in_either kwl a b = Ok hit -> hit = text_has kwl a || text_has kwl b.
Proof.
  unfold keyword_in_either.
  destruct a; simpl; try discriminate.
  destruct (contains kwl (lower s)); simpl; [now intros [= <-]|].
  destruct b; simpl; try discriminate; now intros [= <-].
Qed.

(** The plugin loop body on a node whose [data] is a mapping. *)
Lemma tool_node_body_data (kwl : string) (acc : list value) (node : value) (d : dict) :
  node_data node = Some d ->
  tool_node_body kwl acc node =
  if kind_is d "tool" then
    hit <- keyword_in_either kwl (field_or_empty d "provider_id")
             (field_or_empty d "tool_name") ;;
    if hit then Ok (acc ++ [tool_entry node]) else Ok acc
  else Ok acc.
Proof.
  intros Hd; destruct (node_data_some _ Hd) as (nd & -> & Hget).
  unfold tool_node_body; rewrite Hget; cbn [bind].
  rewrite py_get_field; cbn [bind]; rewrite py_ne_str_tool.
  destruct (kind_is d "tool"); simpl negb; cbv iota; [|reflexivity].
  rewrite !py_get_field; cbn [bind].
  destruct (keyword_in_either _ _ _) as [[|]|e]; cbn [bind]; try reflexivity.
  unfold tool_node_title; rewrite Hget; cbn [bind].
  rewrite ?py_get_field; cbn [bind]; rewrite py_get_dict.
  unfold tool_entry, node_id_of, data_of; rewrite Hd; simpl node_fields.
  replace (match dict_lookup d "title" with
           | Some v => v
           | None => field_or_empty d "title"
           end) with (field_or_empty d "title"); [reflexivity|].
  unfold field_or_empty; now destruct (dict_lookup d "title").
Qed.

Lemma tool_node_body_ok (kwl : string) (acc : list value) (node : value)
  (acc' : list value) :
  tool_node_body kwl acc node = Ok acc' ->
  acc' = if tool_qualifies kwl node then acc ++ [tool_entry node] else acc.
Proof.
  unfold tool_qualifies; destruct (node_data node) as [d|] eqn:Hd.
  - rewrite (tool_node_body_data _ _ _ Hd).
    destruct (kind_is d "tool"); simpl; [|now intros [= <-]].
    intros H; apply bind_ok in H as (hit & Hhit & H).
    apply keyword_in_either_ok in Hhit; rewrite <- Hhit.
    destruct hit; now inversion H.
  - rewrite (tool_node_body_none _ _ _ Hd); discriminate.
Qed.

Lemma tool_node_body_shaped (kwl : string) (acc : list value) (node : value) :
  tool_shaped node = true -> is_ok (tool_node_body kwl acc node) = true.
Proof.
  unfold tool_shaped; destruct (node_data node) as [d|] eqn:Hd; [|discriminate].
  rewrite (tool_node_body_data _ _ _ Hd).
  destruct (kind_is d "tool"); [|reflexivity].
  intros H; apply andb_true_iff in H as [Hp Ht].
  apply str_or_absent_text in Hp as [p ->], Ht as [t ->].
  rewrite keyword_in_either_text; simpl.
  now destruct (_ || _).
Qed.

(** The two branches of [llm_field] agree with [llm_resolved]. *)
Lemma llm_field_name (d : dict) :
  llm_field (VDict d) "name" "model" = Ok (fst (llm_resolved d)).
Proof.
  unfold llm_field, llm_resolved, field_or_empty; rewrite !py_get_dict; cbn [bind].
  destruct (dict_lookup d "model") as [[]|]; simpl; try reflexivity.
  now destruct (dict_lookup d0 "name").
Qed.

Lemma llm_field_provider (d : dict) :
  llm_field (VDict d) "provider" "provider" = Ok (snd (llm_resolved d)).
Proof.
  unfold llm_field, llm_resolved, field_or_empty; rewrite !py_get_dict; cbn [bind].
  destruct (dict_lookup d "model") as [[]|]; simpl;
    try (now destruct (dict_lookup d "provider")).
  now destruct (dict_lookup d0 "provider").
Qed.

(** The LLM loop body on a node whose [data] is a mapping. *)
Lemma llm_node_body_data (kwl : string) (acc : list value) (node : value) (d : dict) :
  node_data node = Some d ->
  llm_node_body kwl acc node =
  if kind_is d "llm" then
    hit <- keyword_in_either kwl (fst (llm_resolved d)) (snd (llm_resolved d)) ;;
    if hit then Ok (acc ++ [llm_entry node]) else Ok acc
  else Ok acc.
Proof.
  intros Hd; destruct (node_data_some _ Hd) as (nd & -> & Hget).
  unfold llm_node_body; rewrite Hget; cbn [bind].
  rewrite py_get_field; cbn [bind]; rewrite py_ne_str_llm.
  destruct (kind_is d "llm"); simpl negb; cbv iota; [|reflexivity].
  rewrite llm_field_name, llm_field_provider; cbn [bind].
  destruct (keyword_in_either _ _ _) as [[|]|e]; cbn [bind]; try reflexivity.
  rewrite !py_get_field; cbn [bind].
  unfold llm_entry, node_id_of, data_of; rewrite Hd; reflexivity.
Qed.

Lemma llm_node_body_ok (kwl : string) (acc : list value) (node : value)
  (acc' : list value) :
  llm_node_body kwl acc node = Ok acc' ->
  acc' = if llm_qualifies kwl node then acc ++ [llm_entry node] else acc.
Proof.
  unfold llm_qualifies; destruct (node_data node) as [d|] eqn:Hd.
  - rewrite (llm_node_body_data _ _ _ Hd).
    destruct (kind_is d "llm"); simpl; [|now intros [= <-]].
    intros H; apply bind_ok in H as (hit & Hhit & H).
    apply keyword_in_either_ok in Hhit; rewrite <- Hhit.
    destruct hit; now inversion H.
  - rewrite (llm_node_body_none _ _ _ Hd); discriminate.
Qed.

Lemma llm_resolved_shaped (d : dict) :
  match dict_lookup d "model" with
  | Some (VDict m) => str_or_absent m "name" && str_or_absent m "provider"
  | _ => true
  end = true ->
  exists a b, llm_resolved d = (VStr a, VStr b).
Proof.
  unfold llm_resolved.
  destruct (dict_lookup d "model") as [[]|]; intros H; eauto.
  apply andb_true_iff in H as [Hn Hp].
  apply str_or_absent_text in Hn as [a ->], Hp as [b ->]; eauto.
Qed.

Lemma llm_node_body_shaped (kwl : string) (acc : list value) (node : value) :
  llm_shaped node = true -> is_ok (llm_node_body kwl acc node) = true.
Proof.
  unfold llm_shaped; destruct (node_data node) as [d|] eqn:Hd; [|discriminate].
  rewrite (llm_node_body_data _ _ _ Hd).
  destruct (kind_is d "llm"); [|reflexivity].
  intros H; apply llm_resolved_shaped in H as (a & b & ->); simpl fst; simpl snd.
  rewrite keyword_in_either_text; simpl.
  now destruct (_ || _).
Qed.

(* ------------------------------------------------------------------ *)
(** ** Field extraction, matching and model resolution *)
(* ------------------------------------------------------------------ *)

(** C1, as amended.  For a node examined by either search whose [data] is
    a mapping and whose lower-cased candidate fields ([provider_id] and
    [tool_name] of a Tool Node, [name] and [provider] inside the nested
    model mapping of an LLM Node) are strings or absent, the node is
    processed without an exception: the match list is left as it is or
    gains the node's entry.  Every field of that entry that the node does
    not have is the empty string, the title is passed on whatever its
    shape, and the flat [model] and [provider] of an LLM Node go through
    [str]. *)
Theorem missing_fields_degrade (keyword_lower : string) (acc : list value)
  (node : value) :
  (tool_shaped node = true ->
   exists acc', tool_node_body keyword_lower acc node = Ok acc'
                /\ (acc' = acc \/ acc' = acc ++ [tool_entry node]))
  /\ (llm_shaped node = true ->
      exists acc', llm_node_body keyword_lower acc node = Ok acc'
                   /\ (acc' = acc \/ acc' = acc ++ [llm_entry node]))
  /\ (forall (d : dict) (k : string),
        dict_lookup d k = None -> field_or_empty d k = VStr "")
  /\ (forall d : dict,
        dict_lookup d "model" = None -> dict_lookup d "provider" = None ->
        llm_resolved d = (VStr "", VStr ""))
  /\ (forall d m : dict,
        dict_lookup d "model" = Some (VDict m) ->
        dict_lookup m "name" = None -> dict_lookup m "provider" = None ->
        llm_resolved d = (VStr "", VStr "")).
Proof.
  repeat split.
  - intros Hs; pose proof (tool_node_body_shaped keyword_lower acc _ Hs) as Hok.
    destruct (tool_node_body keyword_lower acc node) as [acc'|e] eqn:E;
      [|discriminate].
    exists acc'; split; [reflexivity|].
    apply tool_node_body_ok in E; destruct (tool_qualifies _ _); auto.
  - intros Hs; pose proof (llm_node_body_shaped keyword_lower acc _ Hs) as Hok.
    destruct (llm_node_body keyword_lower acc node) as [acc'|e] eqn:E;
      [|discriminate].
    exists acc'; split; [reflexivity|].
    apply llm_node_body_ok in E; destruct (llm_qualifies _ _); auto.
  - apply field_or_empty_absent.
  - intros d Hm Hp; unfold llm_resolved, field_or_empty; now rewrite Hm, Hp.
  - intros d m Hm Hn Hp; unfold llm_resolved, field_or_empty; now rewrite Hm, Hn, Hp.
Qed.

(** C4, as amended.  Whenever the Graph Node Matcher returns, its match
    list is the list of entries of exactly the nodes that qualify, in the
    order of the document's node sequence; a node qualifies if and only
    if its [data.type] equals the target kind and the lower-cased keyword
    is a substring of the lower-cased text of at least one candidate
    field; a document with no node of the target kind gives the empty
    list; and the matcher does return on every document whose nodes are
    well shaped: mappings whose [data] is absent or a mapping and, for a
    node of the target kind, whose lower-cased fields are strings or
    absent. *)
Theorem graph_node_matcher_filter (keyword : string) (graph : value)
  (items : list value) :
  graph_nodes graph = Ok items ->
  (forall out, match_nodes (tool_node_body (lower keyword)) graph = Ok out ->
     out = map tool_entry (filter (tool_qualifies (lower keyword)) items))
  /\ (forall out, match_nodes (llm_node_body (lower keyword)) graph = Ok out ->
        out = map llm_entry (filter (llm_qualifies (lower keyword)) items))
  /\ (forall node, tool_qualifies (lower keyword) node = true <->
        exists d, node_data node = Some d /\ kind_is d "tool" = true
          /\ exists s, (field_or_empty d "provider_id" = VStr s
                        \/ field_or_empty d "tool_name" = VStr s)
                       /\ substring_of (lower keyword) (lower s))
  /\ (forall node, llm_qualifies (lower keyword) node = true <->
        exists d, node_data node = Some d /\ kind_is d "llm" = true
          /\ exists s, (fst (llm_resolved d) = VStr s
                        \/ snd (llm_resolved d) = VStr s)
                       /\ substring_of (lower keyword) (lower s))
  /\ ((forall node d, In node items -> node_data node = Some d ->
         kind_is d "tool" = false) ->
      forall out, match_nodes (tool_node_body (lower keyword)) graph = Ok out ->
        out = [])
  /\ ((forall node d, In node items -> node_data node = Some d ->
         kind_is d "llm" = false) ->
      forall out, match_nodes (llm_node_body (lower keyword)) graph = Ok out ->
        out = [])
  /\ (forallb tool_shaped items = true ->
      is_ok (match_nodes (tool_node_body (lower keyword)) graph) = true)
  /\ (forallb llm_shaped items = true ->
      is_ok (match_nodes (llm_node_body (lower keyword)) graph) = true).
Proof.
  intros Hitems.
  assert (Htool : forall out,
            match_nodes (tool_node_body (lower keyword)) graph = Ok out ->
            out = map tool_entry (filter (tool_qualifies (lower keyword)) items)).
  { unfold match_nodes; rewrite Hitems; cbn [bind]; intros out H.
    apply (for_each_filter_map _ (tool_qualifies (lower keyword)) tool_entry) in H;
      [exact H | intros; now apply tool_node_body_ok]. }
  assert (Hllm : forall out,
            match_nodes (llm_node_body (lower keyword)) graph = Ok out ->
            out = map llm_entry (filter (llm_qualifies (lower keyword)) items)).
  { unfold match_nodes; rewrite Hitems; cbn [bind]; intros out H.
    apply (for_each_filter_map _ (llm_qualifies (lower keyword)) llm_entry) in H;
      [exact H | intros; now apply llm_node_body_ok]. }
  assert (Htext : forall kwl a b,
            text_has kwl a || text_has kwl b = true <->
            exists s, (a = VStr s \/ b = VStr s) /\ substring_of kwl (lower s)).
  { intros kwl a b; rewrite orb_true_iff; split.
    - intros [H|H]; [destruct a | destruct b]; try discriminate;
        apply contains_spec in H; eauto.
    - intros (s & [->| ->] & H); apply contains_spec in H; auto. }
  assert (Hnone : forall (keep : value -> bool) (kind : string),
            (forall node, keep node = true ->
               exists d, node_data node = Some d /\ kind_is d kind = true) ->
            (forall node d, In node items -> node_data node = Some d ->
               kind_is d kind = false) ->
            filter keep items = []).
  { intros keep kind Hkeep Hno.
    destruct (filter keep items) as [|node rest] eqn:F; [reflexivity|].
    assert (Hin : In node (filter keep items)) by (rewrite F; now left).
    apply filter_In in Hin as [Hin Hk].
    apply Hkeep in Hk as (d & Hd & Hkind).
    rewrite (Hno _ _ Hin Hd) in Hkind; discriminate. }
  assert (Hq_tool : forall node, tool_qualifies (lower keyword) node = true <->
            exists d, node_data node = Some d /\ kind_is d "tool" = true
              /\ exists s, (field_or_empty d "provider_id" = VStr s
                            \/ field_or_empty d "tool_name" = VStr s)
                           /\ substring_of (lower keyword) (lower s)).
  { intros node; unfold tool_qualifies.
    destruct (node_data node) as [d|].
    - rewrite andb_true_iff, Htext; split.
      + intros [Hk H]; eauto.
      + intros (d' & [= <-] & Hk & H); auto.
    - split; [discriminate | intros (d' & Hd & _); discriminate]. }
  assert (Hq_llm : forall node, llm_qualifies (lower keyword) node = true <->
            exists d, node_data node = Some d /\ kind_is d "llm" = true
              /\ exists s, (fst (llm_resolved d) = VStr s
                            \/ snd (llm_resolved d) = VStr s)
                           /\ substring_of (lower keyword) (lower s)).
  { intros node; unfold llm_qualifies.
    destruct (node_data node) as [d|].
    - rewrite andb_true_iff, Htext; split.
      + intros [Hk H]; eauto.
      + intros (d' & [= <-] & Hk & H); auto.
    - split; [discriminate | intros (d' & Hd & _); discriminate]. }
  repeat match goal with |- _ /\ _ => split end; auto.
  - intros Hno out H; rewrite (Htool _ H).
    rewrite (Hnone _ "tool"); [reflexivity | | exact Hno].
    intros node Hk; apply Hq_tool in Hk as (d & Hd & Hkind & _); eauto.
  - intros Hno out H; rewrite (Hllm _ H).
    rewrite (Hnone _ "llm"); [reflexivity | | exact Hno].
    intros node Hk; apply Hq_llm in Hk as (d & Hd & Hkind & _); eauto.
  - intros Hs; unfold match_nodes; rewrite Hitems; cbn [bind].
    apply (for_each_all_ok _ tool_shaped); [|exact Hs].
    intros; now apply tool_node_body_shaped.
  - intros Hs; unfold match_nodes; rewrite Hitems; cbn [bind].
    apply (for_each_all_ok _ llm_shaped); [|exact Hs].
    intros; now apply llm_node_body_shaped.
Qed.




(** C10.  The plugin search with the nested title lookup
    [data.get("title", node.get("data", {}).get("title", ""))] is the same
    function as the one with the simple lookup [data.get("title", "")]:
    the two loop bodies agree on every keyword, match list and node, and
    for a node whose [data] is a mapping the title expression evaluates
    to the node's [data.title], or to the empty string when it is
    absent. *)
Theorem tool_title_lookup_simple (keyword_lower : string) (acc : list value)
  (node : value) :
  tool_node_body keyword_lower acc node
    = tool_node_body_simple keyword_lower acc node
  /\ (forall d : dict, node_data node = Some d ->
        tool_node_title node (VDict d) = Ok (field_or_empty d "title")).
Proof.
  assert (Htitle : forall d, node_data node = Some d ->
            tool_node_title node (VDict d) = Ok (field_or_empty d "title")).
  { intros d Hd; destruct (node_data_some _ Hd) as (nd & -> & Hget).
    unfold tool_node_title; rewrite Hget; cbn [bind].
    rewrite py_get_field; cbn [bind]; rewrite py_get_dict.
    unfold field_or_empty; now destruct (dict_lookup d "title"). }
  split; [|exact Htitle].
  destruct (node_data node) as [d|] eqn:Hd.
  - specialize (Htitle d eq_refl).
    destruct (node_data_some _ Hd) as (nd & -> & Hget).
    unfold tool_node_body, tool_node_body_simple; rewrite Hget; cbn [bind].
    destruct (py_get (VDict d) "type" (VStr "")) as [t|e]; cbn [bind]; [|reflexivity].
    destruct (py_ne_str t "tool"); [reflexivity|].
    destruct (py_get (VDict d) "provider_id" (VStr "")) as [p|e]; cbn [bind];
      [|reflexivity].
    destruct (py_get (VDict d) "tool_name" (VStr "")) as [n|e]; cbn [bind];
      [|reflexivity].
    destruct (keyword_in_either keyword_lower p n) as [[|]|e]; cbn [bind];
      try reflexivity.
    destruct (py_get (VDict nd) "id" (VStr "")) as [i|e]; cbn [bind]; [|reflexivity].
    rewrite Htitle, py_get_field; reflexivity.
  - rewrite (tool_node_body_none _ _ _ Hd).
    unfold tool_node_body_simple; destruct node as [| | | |l|nd|]; try reflexivity.
    simpl in Hd |- *.
    destruct (dict_lookup nd "data") as [[]|]; try discriminate; reflexivity.
Qed.

(* ------------------------------------------------------------------ *)
(** ** Rows: skipping, the envelope and the normalizer *)
(* ------------------------------------------------------------------ *)

(** A row that leaves the result list alone can be removed from the
    rows. *)
Lemma for_each_skip {S A : Type} (body : S -> A -> result S) (a : A) :
  (forall s, body s a = Ok s) ->
  forall pre post s, for_each body (pre ++ a :: post) s = for_each body (pre ++ post) s.
Proof.
  intros Hskip pre post s; rewrite !for_each_app.
  destruct (for_each body pre s) as [s'|e]; cbn [bind]; [|reflexivity].
  simpl; now rewrite Hskip.
Qed.

Lemma workflow_row_unreadable (key : string)
  (node_body : list value -> value -> result (list value)) (row : Record)
  (g : value) :
  record_get row "graph" = Ok g ->
  g = VNone \/ try_json_loads g = Ok None ->
  forall results, workflow_row_body key node_body results row = Ok results.
Proof.
  intros Hg Hbad results; unfold workflow_row_body; rewrite Hg; cbn [bind].
  destruct Hbad as [->|Hnone]; [reflexivity|].
  rewrite Hnone; now destruct (negb (truthy g)).
Qed.

Lemma workflow_row_no_match (key : string)
  (node_body : list value -> value -> result (list value)) (row : Record)
  (g graph : value) :
  record_get row "graph" = Ok g ->
  try_json_loads g = Ok (Some graph) ->
  match_nodes node_body graph = Ok [] ->
  forall results, workflow_row_body key node_body results row = Ok results.
Proof.
  intros Hg Hload Hmatch results; unfold workflow_row_body; rewrite Hg; cbn [bind].
  rewrite Hload; cbn [bind]; rewrite Hmatch; now destruct (negb (truthy g)).
Qed.

Lemma workflow_row_loads_raised (key : string)
  (node_body : list value -> value -> result (list value)) (row : Record)
  (s : string) (e : exn) :
  record_get row "graph" = Ok (VStr s) -> s <> "" ->
  json_loads s = LoadsRaised e ->
  forall results, workflow_row_body key node_body results row = Raise e.
Proof.
  intros Hg Hs Hload results; unfold workflow_row_body; rewrite Hg; cbn [bind].
  simpl; destruct (String.eqb_spec s "") as [->|_]; [now destruct Hs|].
  now rewrite Hload.
Qed.

(** The rows the searches do skip.  A workflow row whose graph field is null,
    or for which [json.loads] raises one of the two exceptions the
    [except] clause names, is skipped by both searches: the rows before
    it and after it are processed as if it were not there.  A row whose
    graph parses and has no matching node adds nothing either. *)
Lemma unreadable_rows_skipped (keyword : string) (pre post : list Record)
  (row : Record) (g : value) :
  record_get row "graph" = Ok g ->
  (g = VNone \/ try_json_loads g = Ok None ->
   plugin_results keyword (pre ++ row :: post) = plugin_results keyword (pre ++ post)
   /\ llm_results keyword (pre ++ row :: post) = llm_results keyword (pre ++ post))
  /\ (forall graph, try_json_loads g = Ok (Some graph) ->
        match_nodes (tool_node_body (lower keyword)) graph = Ok [] ->
        plugin_results keyword (pre ++ row :: post)
          = plugin_results keyword (pre ++ post))
  /\ (forall graph, try_json_loads g = Ok (Some graph) ->
        match_nodes (llm_node_body (lower keyword)) graph = Ok [] ->
        llm_results keyword (pre ++ row :: post) = llm_results keyword (pre ++ post)).
Proof.
  intros Hg; unfold plugin_results, llm_results; repeat split.
  - apply for_each_skip; now apply (workflow_row_unreadable _ _ _ Hg).
  - apply for_each_skip; now apply (workflow_row_unreadable _ _ _ Hg).
  - intros graph Hload Hmatch.
    apply for_each_skip; now apply (workflow_row_no_match _ _ _ Hg Hload).
  - intros graph Hload Hmatch.
    apply for_each_skip; now apply (workflow_row_no_match _ _ _ Hg Hload).
Qed.

(** C6, the defect.  A workflow row whose graph is a text on which
    [json.loads] raises an exception other than [JSONDecodeError], as it
    does with [ValueError] for an integer literal over the digit limit
    and with [RecursionError] for a document nested too deeply, is not
    skipped: the [except] clause does not name the exception, and once the
    rows before it are processed the search ends with it, the rows after
    notwithstanding. *)
Theorem uncaught_parse_error_surfaces (keyword : string) (pre post : list Record)
  (row : Record) (s : string) (e : exn) (before : list value) :
  record_get row "graph" = Ok (VStr s) -> s <> "" ->
  json_loads s = LoadsRaised e ->
  (plugin_results keyword pre = Ok before ->
   plugin_results keyword (pre ++ row :: post) = Raise e)
  /\ (llm_results keyword pre = Ok before ->
      llm_results keyword (pre ++ row :: post) = Raise e).
Proof.
  intros Hg Hs Hload; unfold plugin_results, llm_results; split; intros Hpre.
  - eapply for_each_raises_at; [exact Hpre|].
    now apply (workflow_row_loads_raised _ _ _ Hg Hs Hload).
  - eapply for_each_raises_at; [exact Hpre|].
    now apply (workflow_row_loads_raised _ _ _ Hg Hs Hload).
Qed.

(** Inverts a chain of binds that returned. *)
Ltac bind_inv H :=
  repeat (let a := fresh "a" in
          let Ha := fresh "Ha" in
          apply bind_ok in H as (a & Ha & H)).

(** C7.  Whatever keyword [k] a tool is called with, the envelope it
    builds has [k] itself under ["keyword"], and the string it returns
    is the serialization of that envelope. *)
Theorem keyword_echoed (k : string) :
  (forall s, search_dify_credentials k = Ok s ->
     exists d, search_dify_credentials_output k = Ok (VDict d)
               /\ s = json_dumps (VDict d)
               /\ dict_lookup d "keyword" = Some (VStr k))
  /\ (forall s, search_workflows_by_plugin k = Ok s ->
        exists d, search_workflows_by_plugin_output k = Ok (VDict d)
                  /\ s = json_dumps (VDict d)
                  /\ dict_lookup d "keyword" = Some (VStr k))
  /\ (forall s, search_workflows_by_llm k = Ok s ->
        exists d, search_workflows_by_llm_output k = Ok (VDict d)
                  /\ s = json_dumps (VDict d)
                  /\ dict_lookup d "keyword" = Some (VStr k)).
Proof.
  repeat split; intros s H.
  - unfold search_dify_credentials in H.
    apply bind_ok in H as (env & Henv & H); injection H as <-.
    pose proof Henv as Hshape; unfold search_dify_credentials_output in Hshape.
    bind_inv Hshape; injection Hshape as <-.
    unfold envelope in Henv |- *; eexists; split; [exact Henv|].
    split; reflexivity.
  - unfold search_workflows_by_plugin in H.
    apply bind_ok in H as (env & Henv & H); injection H as <-.
    pose proof Henv as Hshape; unfold search_workflows_by_plugin_output in Hshape.
    bind_inv Hshape; injection Hshape as <-.
    unfold envelope in Henv |- *; eexists; split; [exact Henv|].
    split; reflexivity.
  - unfold search_workflows_by_llm in H.
    apply bind_ok in H as (env & Henv & H); injection H as <-.
    pose proof Henv as Hshape; unfold search_workflows_by_llm_output in Hshape.
    bind_inv Hshape; injection Hshape as <-.
    unfold envelope in Henv |- *; eexists; split; [exact Henv|].
    split; reflexivity.
Qed.

Lemma dict_keys_set_new {V : Type} (d : list (string * V)) (k : string) (v : V) :
  ~ In k (map fst d) -> map fst (dict_set d k v) = map fst d ++ [k].
Proof.
  induction d as [|[k' v'] d IH]; simpl; intros Hnot; [reflexivity|].
  destruct (String.eqb_spec k' k) as [->|Hne]; [prop|].
  simpl; f_equal; apply IH; prop.
Qed.

Lemma dict_lookup_set_eq {V : Type} (d : list (string * V)) (k : string) (v : V) :
  dict_lookup (dict_set d k v) k = Some v.
Proof.
  induction d as [|[k' v'] d IH]; simpl.
  - now rewrite String.eqb_refl.
  - destruct (String.eqb_spec k' k) as [->|Hne]; simpl.
    + now rewrite String.eqb_refl.
    + destruct (String.eqb_spec k' k); [contradiction | exact IH].
Qed.

Lemma dict_lookup_set_neq {V : Type} (d : list (string * V)) (k k' : string) (v : V) :
  k <> k' -> dict_lookup (dict_set d k v) k' = dict_lookup d k'.
Proof.
  intros Hne; induction d as [|[k0 v0] d IH]; simpl.
  - destruct (String.eqb_spec k k'); [contradiction | reflexivity].
  - destruct (String.eqb_spec k0 k) as [->|Hne0]; simpl.
    + destruct (String.eqb_spec k k'); [contradiction | reflexivity].
    + now rewrite IH.
Qed.

Lemma format_value_normalized (val : value) : format_value val = normalized val.
Proof. now destruct val. Qed.

(** The inner loop of [_format_rows] over columns the row has, none of
    them assigned before nor repeated. *)
Lemma format_cols_spec (row : Record) (columns : list string) :
  has_columns columns row ->
  forall item : dict,
    NoDup (dict_keys item ++ columns) ->
    exists item',
      for_each (format_col row) columns item = Ok item'
      /\ dict_keys item' = dict_keys item ++ columns
      /\ (forall col val, In col columns -> dict_lookup row col = Some val ->
            dict_lookup item' col = Some (normalized val))
      /\ (forall k, ~ In k columns -> dict_lookup item' k = dict_lookup item k).
Proof.
  unfold dict_keys.
  induction columns as [|c columns IH]; intros Hhas item Hnd.
  - exists item; simpl; rewrite app_nil_r; repeat split; prop.
  - assert (Hc : ~ In c (map fst item) /\ ~ In c columns).
    { apply NoDup_remove_2 in Hnd; rewrite in_app_iff in Hnd; prop. }
    destruct Hc as [Hc1 Hc2].
    destruct (dict_lookup row c) as [v|] eqn:Ev;
      [|exfalso; apply (Hhas c); [now left | exact Ev]].
    destruct (IH (fun col H => Hhas col (or_intror H))
                (dict_set item c (format_value v))) as (item' & Hrun & Hkeys & Hval & Hold).
    { rewrite dict_keys_set_new by exact Hc1.
      rewrite <- app_assoc; exact Hnd. }
    exists item'; simpl; unfold format_col at 1, record_get; rewrite Ev; cbn [bind].
    repeat split.
    + exact Hrun.
    + rewrite Hkeys, dict_keys_set_new by exact Hc1; now rewrite <- app_assoc.
    + intros col val [<-|Hin] Hrow.
      * rewrite (Hold c Hc2), dict_lookup_set_eq, format_value_normalized.
        congruence.
      * now apply Hval.
    + intros k Hk; rewrite Hold by prop.
      apply dict_lookup_set_neq; prop.
Qed.

(** C3, as amended.  For every sequence of rows and every projection of
    pairwise distinct column names that every row has, the Row Normalizer
    returns one dictionary per row, in row order, each with exactly the
    projected keys in projection order, where a null source value maps
    to null, a mapping or list value passes through unchanged and every
    other value is converted to its string representation. *)
Theorem format_rows_projection (rows : list Record) (columns : list string) :
  NoDup columns ->
  Forall (has_columns columns) rows ->
  exists items : list dict,
    _format_rows rows columns = Ok (map VDict items)
    /\ Forall2 (projects columns) rows items
    /\ normalized VNone = VNone
    /\ (forall d, normalized (VDict d) = VDict d)
    /\ (forall l, normalized (VList l) = VList l)
    /\ (forall val, val <> VNone -> is_dict_or_list val = false ->
          normalized val = VStr (py_str val)).
Proof.
  intros Hnd Hrows.
  assert (Hloop : forall acc : list value,
            exists items : list dict,
              for_each (format_row columns) rows acc = Ok (acc ++ map VDict items)
              /\ Forall2 (projects columns) rows items).
  { induction Hrows as [|row rows Hrow Hrows IH]; intros acc.
    - exists []; simpl; rewrite app_nil_r; split; [reflexivity | constructor].
    - destruct (format_cols_spec Hrow [] Hnd) as (item & Hrun & Hkeys & Hval & _).
      destruct (IH (acc ++ [VDict item])) as (items & Hrest & Hall).
      exists (item :: items); simpl; unfold format_row at 1.
      rewrite Hrun; cbn [bind]; rewrite Hrest, <- app_assoc.
      split; [reflexivity|].
      constructor; [split; [exact Hkeys | exact Hval] | exact Hall]. }
  destruct (Hloop []) as (items & Hrun & Hall).
  exists items; repeat split; try assumption.
  intros val Hnone Hstruct; destruct val; try reflexivity;
    [contradiction | discriminate | discriminate].
Qed.

(* ------------------------------------------------------------------ *)
(** ** The result sets of the SQL statements *)
(* ------------------------------------------------------------------ *)

Section Ordering.

Variable A : Type.
Variable le : A -> A -> bool.
Hypothesis le_total : forall x y, le x y = true \/ le y x = true.
Hypothesis le_trans : forall x y z, le x y = true -> le y z = true -> le x z = true.

Lemma insert_by_perm (x : A) (l : list A) : Permutation (insert_by le x l) (x :: l).
Proof.
  induction l as [|y l IH]; simpl; [reflexivity|].
  destruct (le x y); [reflexivity|].
  rewrite IH; apply perm_swap.
Qed.

Lemma order_by_perm (l : list A) : Permutation (order_by le l) l.
Proof.
  induction l as [|x l IH]; simpl; [reflexivity|].
  rewrite insert_by_perm; now constructor.
Qed.

Lemma insert_by_sorted (x : A) (l : list A) :
  StronglySorted (fun a b => le a b = true) l ->
  StronglySorted (fun a b => le a b = true) (insert_by le x l).
Proof using le_total le_trans.
  induction 1 as [|y l Hl IH Hy]; simpl; [repeat constructor|].
  destruct (le x y) eqn:E.
  - constructor; [now constructor|].
    constructor; [exact E|].
    eapply Forall_impl; [|exact Hy]; intros z; now apply le_trans.
  - constructor; [exact IH|].
    eapply Permutation_Forall; [symmetry; apply insert_by_perm|].
    constructor; [|exact Hy].
    destruct (le_total x y) as [H|H]; [congruence | exact H].
Qed.

Lemma order_by_sorted (l : list A) :
  StronglySorted (fun a b => le a b = true) (order_by le l).
Proof using le_total le_trans.
  induction l as [|x l IH]; simpl; [constructor | now apply insert_by_sorted].
Qed.

End Ordering.

Lemma sorted_after {A : Type} (R : A -> A -> Prop) (l1 l2 : list A) (x : A) :
  StronglySorted R (l1 ++ x :: l2) -> Forall (R x) l2.
Proof.
  induction l1 as [|y l1 IH]; simpl; intros H; inversion H; subst; auto.
Qed.

Lemma sorted_firstn {A : Type} (R : A -> A -> Prop) (n : nat) (l : list A) :
  StronglySorted R l -> StronglySorted R (firstn n l).
Proof.
  intros H; revert n; induction H as [|x l Hl IH Hx]; intros [|n]; simpl;
    try constructor; [apply IH|].
  rewrite Forall_forall in *; intros y Hy; apply Hx.
  rewrite <- (firstn_skipn n l); apply in_or_app; now left.
Qed.

Lemma in_firstn {A : Type} (n : nat) (l : list A) (x : A) :
  In x (firstn n l) -> In x l.
Proof.
  intros H; rewrite <- (firstn_skipn n l); apply in_or_app; now left.
Qed.

Lemma nodup_firstn {A : Type} (n : nat) (l : list A) : NoDup l -> NoDup (firstn n l).
Proof.
  intros H; revert n; induction H as [|x l Hx Hl IH]; intros [|n]; simpl;
    try constructor; [|apply IH].
  intros Hin; apply Hx; now apply in_firstn in Hin.
Qed.

Lemma distinct_on_in {A : Type} (key : A -> Z) (l : list A) (x : A) :
  In x (distinct_on key l) -> In x l.
Proof.
  induction l as [|y l IH]; simpl; [prop|].
  intros [->|H]; [now left|].
  apply filter_In in H as [H _]; auto.
Qed.

Lemma distinct_on_nodup {A : Type} (key : A -> Z) (l : list A) :
  NoDup (map key (distinct_on key l)).
Proof.
  induction l as [|x l IH]; simpl; constructor.
  - rewrite in_map_iff; intros (y & Hk & Hy).
    apply filter_In in Hy as [_ Hy].
    rewrite Hk, Z.eqb_refl in Hy; discriminate.
  - induction (distinct_on key l) as [|y r IHr]; simpl; [constructor|].
    inversion IH; subst.
    destruct (negb (key y =? key x)%Z); simpl; [|now apply IHr].
    constructor; [|now apply IHr].
    rewrite in_map_iff in *; intros (z & Hk & Hz).
    apply filter_In in Hz as [Hz _]; eauto.
Qed.

(** A row that [DISTINCT ON] keeps is the first of its key. *)
Lemma distinct_on_first {A : Type} (key : A -> Z) (l : list A) (x : A) :
  In x (distinct_on key l) ->
  exists l1 l2, l = l1 ++ x :: l2 /\ forall y, In y l1 -> key y <> key x.
Proof.
  induction l as [|a l IH]; simpl; [prop|].
  intros [->|H].
  - exists [], l; split; [reflexivity | intros y []].
  - apply filter_In in H as [H Hk].
    destruct (IH H) as (l1 & l2 & -> & Hl1).
    exists (a :: l1), l2; split; [reflexivity|].
    intros y [<-|Hy]; [|now apply Hl1].
    apply negb_true_iff, Z.eqb_neq in Hk; congruence.
Qed.

Lemma distinct_on_ascending {A : Type} (key : A -> Z) (l : list A) :
  StronglySorted (fun a b => (key a <= key b)%Z) l ->
  StronglySorted (fun a b => (key a < key b)%Z) (distinct_on key l).
Proof.
  induction 1 as [|x l Hl IH Hx]; simpl; constructor.
  - induction IH as [|y r Hr IHr Hy]; simpl; [constructor|].
    destruct (negb (key y =? key x)%Z); [|exact IHr].
    constructor; [exact IHr|].
    rewrite Forall_forall in *; intros z Hz.
    apply filter_In in Hz as [Hz _]; auto.
  - rewrite Forall_forall in *; intros y Hy.
    apply filter_In in Hy as [Hy Hk].
    apply distinct_on_in, Hx in Hy.
    apply negb_true_iff, Z.eqb_neq in Hk; lia.
Qed.

Lemma desc_le_total (a b : option Z) : desc_le a b = true \/ desc_le b a = true.
Proof.
  destruct a as [x|], b as [y|]; simpl; auto.
  destruct (Z.leb_spec y x); [now left | right; apply Z.leb_le; lia].
Qed.

Lemma desc_le_trans (a b c : option Z) :
  desc_le a b = true -> desc_le b c = true -> desc_le a c = true.
Proof.
  destruct a, b, c; simpl; auto; try discriminate.
  rewrite !Z.leb_le; lia.
Qed.

Lemma workflow_le_spec (a b : workflow) :
  workflow_le a b = true <->
  (w_app_id a < w_app_id b)%Z
  \/ (w_app_id a = w_app_id b /\ desc_le (w_updated_at a) (w_updated_at b) = true).
Proof.
  unfold workflow_le.
  rewrite orb_true_iff, andb_true_iff, Z.ltb_lt, Z.eqb_eq; prop.
Qed.

Lemma workflow_le_total (a b : workflow) :
  workflow_le a b = true \/ workflow_le b a = true.
Proof.
  rewrite !workflow_le_spec.
  destruct (Z.lt_trichotomy (w_app_id a) (w_app_id b)) as [H|[H|H]]; auto.
  destruct (desc_le_total (w_updated_at a) (w_updated_at b)); auto.
Qed.

Lemma workflow_le_trans (a b c : workflow) :
  workflow_le a b = true -> workflow_le b c = true -> workflow_le a c = true.
Proof.
  rewrite !workflow_le_spec; intros [H1|[H1 D1]] [H2|[H2 D2]]; try lia.
  right; split; [lia | eapply desc_le_trans; eauto].
Qed.

(** The two credential statements return their rows most recently
    updated first. *)
Lemma credentials_most_recent_first (table : list provider_model_credential)
  (tools : list tool_builtin_provider) (pattern : string) :
  most_recent_first c_updated_at (select_provider_model_credentials table pattern)
  /\ most_recent_first t_updated_at (select_tool_builtin_providers tools pattern).
Proof.
  split; apply sorted_firstn.
  - apply (order_by_sorted (fun a b => desc_le (c_updated_at a) (c_updated_at b))).
    + intros; apply desc_le_total.
    + intros x y z; apply desc_le_trans.
  - apply (order_by_sorted (fun a b => desc_le (t_updated_at a) (t_updated_at b))).
    + intros; apply desc_le_total.
    + intros x y z; apply desc_le_trans.
Qed.

Lemma desc_le_refl (a : option Z) : desc_le a a = true.
Proof. destruct (desc_le_total a a); assumption. Qed.

Lemma distinct_on_covers {A : Type} (key : A -> Z) (l : list A) (y : A) :
  In y l -> exists x, In x (distinct_on key l) /\ key x = key y.
Proof.
  induction l as [|a l IH]; simpl; [intros []|].
  intros [->|Hy]; [exists y; auto|].
  destruct (IH Hy) as (x & Hx & Hk).
  destruct (Z.eq_dec (key x) (key a)) as [Heq|Hne].
  - exists a; split; [now left | congruence].
  - exists x; split; [|exact Hk].
    right; apply filter_In; split; [exact Hx|].
    now apply negb_true_iff, Z.eqb_neq.
Qed.

Lemma distinct_on_length {A : Type} (key : A -> Z) (l : list A) :
  List.length (distinct_on key l) <= List.length l.
Proof.
  induction l as [|a l IH]; simpl; [lia|].
  pose proof (filter_length_le (fun y => negb (key y =? key a)%Z)
                (distinct_on key l)); lia.
Qed.

Lemma sorted_across {A : Type} (R : A -> A -> Prop) (l1 l2 : list A) :
  StronglySorted R (l1 ++ l2) ->
  forall x y, In x l1 -> In y l2 -> R x y.
Proof.
  induction l1 as [|a l1 IH]; simpl; intros H x y Hx Hy; [destruct Hx|].
  inversion H as [|? ? Hrest Hall]; subst.
  destruct Hx as [<-|Hx]; [|now apply IH].
  rewrite Forall_forall in Hall; apply Hall, in_or_app; now right.
Qed.

Lemma workflows_ascending (table : list workflow) (pattern : string) :
  by_application
    (distinct_on w_app_id
       (order_by workflow_le
          (filter (fun w => where_ilike (w_environment_variables w) pattern) table))).
Proof.
  apply distinct_on_ascending.
  pose proof (order_by_sorted workflow_le workflow_le_total workflow_le_trans
                (filter (fun w => where_ilike (w_environment_variables w) pattern)
                   table)) as Hsorted.
  induction Hsorted as [|x l _ IH Hx]; constructor; [exact IH|].
  eapply Forall_impl; [|exact Hx]; intros y Hy.
  apply workflow_le_spec in Hy; lia.
Qed.

Lemma workflow_eq_dec (a b : workflow) : {a = b} + {a <> b}.
Proof.
  decide equality; try apply Z.eq_dec;
    decide equality; try apply Z.eq_dec; apply string_dec.
Qed.

Lemma in_skipn_length {A : Type} (n : nat) (l : list A) (x : A) :
  In x (skipn n l) -> n < List.length l.
Proof.
  intros Hin; destruct (Nat.lt_ge_cases n (List.length l)) as [H|H]; [exact H|].
  rewrite skipn_all2 in Hin by exact H; destruct Hin.
Qed.

(** The row kept for an application comes first under [DESC] among the
    matching rows of the application. *)
Lemma kept_row_first (table : list workflow) (pattern : string)
  (kept other : workflow) :
  In kept (select_workflows_by_environment table pattern) ->
  In other table ->
  where_ilike (w_environment_variables other) pattern = true ->
  w_app_id other = w_app_id kept ->
  desc_le (w_updated_at kept) (w_updated_at other) = true.
Proof.
  unfold select_workflows_by_environment, limit.
  set (matching := filter _ table).
  pose proof (order_by_sorted workflow_le workflow_le_total workflow_le_trans matching)
    as Hsorted.
  pose proof (order_by_perm workflow_le matching) as Hperm.
  set (sorted := order_by workflow_le matching) in *.
  intros Hkept Hother Hmatch Hid.
  apply in_firstn, distinct_on_first in Hkept as (l1 & l2 & Hsplit & Hl1).
  assert (Hin : In other sorted).
  { apply (Permutation_in other (Permutation_sym Hperm)).
    apply filter_In; auto. }
  rewrite Hsplit in Hin, Hsorted.
  apply in_app_or in Hin as [Hin|[Hin|Hin]].
  - now apply Hl1 in Hin.
  - subst other; apply desc_le_refl.
  - apply sorted_after in Hsorted.
    rewrite Forall_forall in Hsorted; apply Hsorted in Hin.
    apply workflow_le_spec in Hin as [Hin|[_ Hin]]; [lia | exact Hin].
Qed.

(** An application with a matching row is in the result set, or the
    result set is full and holds smaller identifiers only. *)
Lemma application_kept_or_cut (table : list workflow) (pattern : string)
  (b : workflow) :
  let rows := select_workflows_by_environment table pattern in
  In b table ->
  where_ilike (w_environment_variables b) pattern = true ->
  (exists kept, In kept rows /\ w_app_id kept = w_app_id b)
  \/ (List.length rows = 50
      /\ forall kept, In kept rows -> (w_app_id kept < w_app_id b)%Z).
Proof.
  unfold select_workflows_by_environment, limit; cbv zeta.
  pose proof (workflows_ascending table pattern) as Hasc.
  set (matching := filter _ table) in *.
  pose proof (order_by_perm workflow_le matching) as Hperm.
  set (sorted := order_by workflow_le matching) in *.
  intros Hb Hmatch.
  destruct (distinct_on_covers w_app_id sorted b) as (x & Hx & Hid).
  { apply (Permutation_in b (Permutation_sym Hperm)), filter_In; auto. }
  rewrite <- (firstn_skipn 50 (distinct_on w_app_id sorted)) in Hx, Hasc.
  apply in_app_or in Hx as [Hx|Hx].
  - left; now exists x.
  - right; split.
    + apply in_skipn_length in Hx; rewrite length_firstn; lia.
    + intros kept Hkept; rewrite <- Hid.
      exact (sorted_across _ _ Hasc _ _ Hkept Hx).
Qed.

(** C2, as amended.  The workflow result set of [search_dify_credentials]
    has at most one row per application identifier, and of two matching
    rows of one application only the one with the later update timestamp
    can appear: the row returned for an application is the latest of the
    matching rows of that application, a row that is later than every
    other matching row of its application is the one returned whenever
    its application is returned, and an application with a matching row
    is returned unless the set is full with smaller identifiers.  The set
    has at most 50 rows, all of them matching rows of the table, and it
    is ordered by ascending application identifier, which is the leading
    key of its [ORDER BY], not by most recent update as the two
    credential result sets are. *)
Theorem workflow_result_set (table : list workflow) (pattern : string) :
  let rows := select_workflows_by_environment table pattern in
  let matches w := where_ilike (w_environment_variables w) pattern = true in
  NoDup (map w_app_id rows)
  /\ (forall a, In a rows -> In a table /\ matches a)
  /\ (forall kept other,
        In kept rows -> In other table -> matches other ->
        w_app_id other = w_app_id kept ->
        desc_le (w_updated_at kept) (w_updated_at other) = true)
  /\ (forall a b ta tb,
        In b table -> matches b -> w_app_id a = w_app_id b ->
        w_updated_at a = Some ta -> w_updated_at b = Some tb -> (ta < tb)%Z ->
        ~ In a rows)
  /\ (forall b tb,
        In b table -> matches b -> w_updated_at b = Some tb ->
        (forall c, In c table -> matches c -> w_app_id c = w_app_id b -> c <> b ->
           exists tc, w_updated_at c = Some tc /\ (tc < tb)%Z) ->
        (exists kept, In kept rows /\ w_app_id kept = w_app_id b) ->
        In b rows)
  /\ (forall b,
        In b table -> matches b ->
        (exists kept, In kept rows /\ w_app_id kept = w_app_id b)
        \/ (List.length rows = 50
            /\ forall kept, In kept rows -> (w_app_id kept < w_app_id b)%Z))
  /\ List.length rows <= 50
  /\ by_application rows.
Proof.
  cbv zeta.
  assert (Hsub : forall a,
            In a (select_workflows_by_environment table pattern) ->
            In a table /\ where_ilike (w_environment_variables a) pattern = true).
  { unfold select_workflows_by_environment, limit; intros a H.
    apply in_firstn, distinct_on_in in H.
    apply (Permutation_in a (order_by_perm workflow_le _)), filter_In in H.
    exact H. }
  split; [|split; [exact Hsub|split; [|split; [|split; [|split; [|split]]]]]].
  - unfold select_workflows_by_environment, limit.
    rewrite <- firstn_map; apply nodup_firstn, distinct_on_nodup.
  - intros kept other; apply kept_row_first.
  - intros a b ta tb Hb Hmatch Hid Ha Htb Hlt Hin.
    pose proof (kept_row_first _ _ _ _ Hin Hb Hmatch (eq_sym Hid)) as Hle.
    rewrite Ha, Htb in Hle; apply Z.leb_le in Hle; lia.
  - intros b tb Hb Hmatch Htb Hlatest (kept & Hkept & Hid).
    destruct (workflow_eq_dec kept b) as [->|Hne]; [exact Hkept|].
    destruct (Hsub _ Hkept) as [Hktable Hkmatch].
    destruct (Hlatest kept Hktable Hkmatch Hid Hne) as (tc & Htc & Hlt).
    pose proof (kept_row_first _ _ _ _ Hkept Hb Hmatch (eq_sym Hid)) as Hle.
    rewrite Htc, Htb in Hle; apply Z.leb_le in Hle; lia.
  - intros b; apply application_kept_or_cut.
  - apply firstn_le_length.
  - apply sorted_firstn, workflows_ascending.
Qed.

(* ------------------------------------------------------------------ *)
(** ** The bearer-token middleware *)
(* ------------------------------------------------------------------ *)

(** With no key configured, and for a connection that is neither HTTP
    nor WebSocket, the middleware hands the connection on untouched. *)
Lemma middleware_open (api_key : string) (sc : scope) :
  api_key = "" \/ http_shaped sc = false ->
  middleware_call api_key sc = Ok (Forward sc).
Proof.
  unfold middleware_call, http_shaped; intros [-> | ->]; simpl; [|reflexivity].
  now destruct (negb _).
Qed.

Lemma middleware_unset (sc : scope) :
  middleware_call (middleware_init None) sc = Ok (Forward sc).
Proof. apply middleware_open; now left. Qed.

(** With a key configured, an HTTP-shaped connection whose header is
    well-formed UTF-8 is forwarded when the header is the bearer
    credential and answered with the 401 response otherwise. *)
Lemma middleware_decodable (api_key : string) (sc : scope) :
  api_key <> "" -> http_shaped sc = true ->
  utf8_valid (authorization_of sc) = true ->
  middleware_call api_key sc =
  Ok (if String.eqb (authorization_of sc) ("Bearer " ++ api_key)%string
      then Forward sc else unauthorized).
Proof.
  unfold middleware_call, http_shaped, authorization_of, bytes_decode.
  intros Hkey -> Hvalid; simpl.
  destruct (String.eqb_spec api_key "") as [|_]; [contradiction|]; simpl.
  rewrite Hvalid; cbn [bind].
  now destruct (String.eqb _ _).
Qed.

(** With a key configured, an HTTP-shaped connection whose header is not
    well-formed UTF-8 makes [decode] raise: no response is built. *)
Lemma middleware_undecodable (api_key : string) (sc : scope) :
  api_key <> "" -> http_shaped sc = true ->
  utf8_valid (authorization_of sc) = false ->
  middleware_call api_key sc = Raise UnicodeDecodeError.
Proof.
  unfold middleware_call, http_shaped, authorization_of, bytes_decode.
  intros Hkey -> Hvalid; simpl.
  destruct (String.eqb_spec api_key "") as [|_]; [contradiction|]; simpl.
  now rewrite Hvalid.
Qed.

(** C8, the defect.  With the secret ["s3cret"] configured, the HTTP
    request whose [Authorization] header is the single byte 0xFF, which is
    not ["Bearer s3cret"], is not answered with the 401 response: decoding
    the header raises [UnicodeDecodeError] out of the middleware. *)
Theorem middleware_undecodable_header_raises :
  middleware_call (middleware_init (Some "s3cret"))
    {| scope_type := "http";
       scope_headers := Some [("authorization", String (ascii_of_nat 255) "")] |}
  = Raise UnicodeDecodeError.
Proof. reflexivity. Qed.

(* ------------------------------------------------------------------ *)
(** ** The connection pool *)
(* ------------------------------------------------------------------ *)

Lemma get_pool_active (cfg : DbConfig) (w : process) (p : pool) :
  _pool w = Some p -> get_pool cfg w = (Ok p, w).
Proof. unfold get_pool; now intros ->. Qed.

Lemma pool_step_wf (w : process) (c : pool_call) : pool_wf w -> pool_wf (pool_step w c).
Proof.
  unfold pool_wf; intros [Hlive Hclosed]; destruct c as [cfg|]; simpl.
  - unfold get_pool, create_pool.
    destruct (_pool w) as [p|] eqn:E; simpl.
    { split; [now rewrite E | exact Hclosed]. }
    destruct (can_connect cfg); simpl.
    + split.
      * intros p Hp; injection Hp as <-; simpl; split; [lia|].
        intros Hin; apply Hclosed in Hin; lia.
      * intros i Hi; apply Hclosed in Hi; lia.
    + split; [now rewrite E | exact Hclosed].
  - unfold close_pool; destruct (_pool w) as [p|] eqn:E; simpl.
    + split; [discriminate|].
      intros i [<-|Hi]; [now apply (Hlive p) | now apply Hclosed].
    + split; [now rewrite E | exact Hclosed].
Qed.

Lemma pool_run_wf (calls : list pool_call) (w : process) :
  pool_wf w -> pool_wf (pool_run calls w).
Proof.
  revert w; induction calls as [|c calls IH]; intros w Hw; simpl; [exact Hw|].
  apply IH, pool_step_wf, Hw.
Qed.

Lemma process_start_wf : pool_wf process_start.
Proof. split; simpl; [discriminate | prop]. Qed.

(** The pool state machine for calls that do not overlap.  In every
    state the process reaches from its start by calls of [get_pool] and
    [close_pool] that each run to their end: while a pool exists every
    acquisition returns that one pool and leaves the state as it is; an
    acquisition without a pool creates one of size 1 to 5 and stores it;
    teardown closes the live pool and leaves the state Uninitialized,
    from which the next acquisition creates a pool that is neither the
    closed one nor any pool closed before; teardown without a pool
    changes nothing. *)
Lemma pool_lifecycle (calls : list pool_call) :
  let w := pool_run calls process_start in
  (forall p cfg, lifecycle_of w = Active p -> get_pool cfg w = (Ok p, w))
  /\ (forall p cfgs, lifecycle_of w = Active p ->
        acquire_all cfgs w = (map (fun _ => Ok p) cfgs, w))
  /\ (forall cfg, lifecycle_of w = Uninitialized -> can_connect cfg = true ->
        exists p, get_pool cfg w = (Ok p, snd (get_pool cfg w))
                  /\ lifecycle_of (snd (get_pool cfg w)) = Active p
                  /\ min_size p = 1 /\ max_size p = 5 /\ pool_config p = cfg)
  /\ (forall p, lifecycle_of w = Active p ->
        lifecycle_of (close_pool w) = Uninitialized
        /\ In (pool_id p) (closed (close_pool w)))
  /\ (forall p cfg, lifecycle_of w = Active p -> can_connect cfg = true ->
        exists p', fst (get_pool cfg (close_pool w)) = Ok p'
                   /\ lifecycle_of (snd (get_pool cfg (close_pool w))) = Active p'
                   /\ pool_id p' <> pool_id p
                   /\ ~ In (pool_id p') (closed (close_pool w)))
  /\ (lifecycle_of w = Uninitialized -> close_pool w = w).
Proof.
  intros w; pose proof (pool_run_wf calls process_start_wf) as Hwf; fold w in Hwf.
  assert (Hactive : forall p, lifecycle_of w = Active p -> _pool w = Some p).
  { unfold lifecycle_of; destruct (_pool w); [now intros p0 [= ->] | discriminate]. }
  assert (Hnone : lifecycle_of w = Uninitialized -> _pool w = None).
  { unfold lifecycle_of; destruct (_pool w); [discriminate | reflexivity]. }
  repeat split.
  - intros p cfg Hp; now apply get_pool_active, Hactive.
  - intros p cfgs Hp; apply Hactive in Hp.
    induction cfgs as [|cfg cfgs IH]; simpl; [reflexivity|].
    now rewrite (get_pool_active cfg _ Hp), IH.
  - intros cfg Hu Hc; apply Hnone in Hu.
    unfold get_pool, create_pool, lifecycle_of; rewrite Hu, Hc; simpl.
    eexists; repeat split.
  - unfold close_pool, lifecycle_of; apply Hactive in H; now rewrite H.
  - unfold close_pool; apply Hactive in H; rewrite H; simpl; now left.
  - intros p cfg Hp Hc; apply Hactive in Hp.
    destruct Hwf as [Hlive Hclosed]; destruct (Hlive p Hp) as [Hlt Hnot].
    unfold close_pool, get_pool, create_pool, lifecycle_of; rewrite Hp; simpl.
    rewrite Hc; simpl.
    eexists; repeat split; simpl.
    + lia.
    + intros [Heq|Hin]; [lia | apply Hclosed in Hin; lia].
  - intros Hu; apply Hnone in Hu; unfold close_pool; now rewrite Hu.
Qed.


(** A call that is not interleaved with another is its two halves one
    after the other. *)
Lemma get_pool_halves (cfg : DbConfig) (w : process) :
  get_pool cfg w
  = match get_pool_enter cfg w with
    | Returns p => (Ok p, w)
    | Awaits c => get_pool_resume c w
    end.
Proof. unfold get_pool, get_pool_enter, get_pool_resume; now destruct (_pool w). Qed.

(** C9, the defect.  Two calls of [get_pool] that both start before a
    pool exists both pass the test [_pool is None] and are both suspended
    in [create_pool]; when they resume each creates a pool and assigns it
    to [_pool].  Calls 3 and 4 below both start while a pool exists, with
    no teardown between them, and are given different pools; the pool of
    call 1 is replaced without being closed, and the teardown at the end
    closes the second pool only. *)
Theorem overlapping_acquisitions_create_two_pools (cfg : DbConfig) :
  can_connect cfg = true ->
  let s := loop_run [Enter 1 cfg; Enter 2 cfg; Resume 1; Enter 3 cfg;
                     Resume 2; Enter 4 cfg; Shutdown] loop_start in
  let first := {| pool_id := 0; pool_config := cfg; min_size := 1; max_size := 5 |} in
  let second := {| pool_id := 1; pool_config := cfg; min_size := 1; max_size := 5 |} in
  returned s = [(1, Ok first); (3, Ok first); (2, Ok second); (4, Ok second)]
  /\ first <> second
  /\ suspended s = []
  /\ created (loop_process s) = 2
  /\ _pool (loop_process s) = None
  /\ closed (loop_process s) = [pool_id second]
  /\ ~ In (pool_id first) (closed (loop_process s)).
Proof.
  intros Hc; cbv zeta.
  unfold loop_run, loop_start; simpl.
  unfold get_pool_resume, create_pool; simpl; rewrite Hc; simpl.
  unfold get_pool_resume, create_pool; simpl; rewrite Hc; simpl.
  repeat split; try reflexivity.
  - intros H; discriminate H.
  - intros [H|[]]; discriminate H.
Qed.
(* ------------------------------------------------------------------ *)
(** ** More on [_format_rows] *)
(* ------------------------------------------------------------------ *)

Lemma columns_present_or_missing (columns : list string) (row : Record) :
  has_columns columns row \/ lacks_column columns row.
Proof.
  unfold has_columns, lacks_column.
  induction columns as [|c columns IH].
  - left; intros col [].
  - destruct (dict_lookup row c) eqn:E.
    + destruct IH as [IH|(col & Hin & Hcol)].
      * left; intros col [<-|Hin]; [congruence | now apply IH].
      * right; exists col; split; [now right | exact Hcol].
    + right; exists c; split; [now left | exact E].
Qed.

Lemma format_cols_ok (row : Record) (columns : list string) :
  has_columns columns row ->
  forall item, is_ok (for_each (format_col row) columns item) = true.
Proof.
  unfold has_columns.
  induction columns as [|c columns IH]; intros Hhas item; simpl; [reflexivity|].
  unfold format_col at 1, record_get.
  destruct (dict_lookup row c) eqn:E;
    [|exfalso; apply (Hhas c); [now left | exact E]].
  cbn [bind]; apply IH; intros col Hin; apply Hhas; now right.
Qed.

Lemma format_cols_missing (row : Record) (columns : list string) :
  lacks_column columns row ->
  forall item, for_each (format_col row) columns item = Raise KeyError.
Proof.
  unfold lacks_column.
  induction columns as [|c columns IH]; intros (col & Hin & Hcol) item.
  - destruct Hin.
  - simpl; unfold format_col at 1, record_get.
    destruct (dict_lookup row c) eqn:E; cbn [bind]; [|reflexivity].
    apply IH; destruct Hin as [<-|Hin]; [congruence | eauto].
Qed.

Lemma format_rows_length (columns : list string) (rows : list Record) :
  forall acc out, for_each (format_row columns) rows acc = Ok out ->
    List.length out = List.length acc + List.length rows.
Proof.
  induction rows as [|row rows IH]; intros acc out H; simpl in H.
  - injection H as <-; simpl; lia.
  - apply bind_ok in H as (acc' & Hrow & H).
    unfold format_row in Hrow; apply bind_ok in Hrow as (item & _ & Hrow).
    injection Hrow as <-; apply IH in H.
    rewrite H, length_app; simpl; lia.
Qed.

Lemma format_rows_present (rows : list Record) (columns : list string) :
  Forall (has_columns columns) rows ->
  exists out, _format_rows rows columns = Ok out
              /\ List.length out = List.length rows.
Proof.
  unfold _format_rows; intros Hall.
  assert (Hok : forall acc,
            is_ok (for_each (format_row columns) rows acc) = true).
  { induction Hall as [|row rows Hrow _ IH]; intros acc; simpl; [reflexivity|].
    unfold format_row at 1.
    pose proof (format_cols_ok Hrow []) as Hitem.
    destruct (for_each (format_col row) columns []); [|discriminate].
    cbn [bind]; apply IH. }
  specialize (Hok []).
  destruct (for_each (format_row columns) rows []) as [out|e] eqn:E;
    [|discriminate].
  exists out; split; [reflexivity | exact (format_rows_length _ _ _ E)].
Qed.

Lemma format_rows_missing (rows : list Record) (columns : list string) :
  Exists (lacks_column columns) rows ->
  _format_rows rows columns = Raise KeyError.
Proof.
  unfold _format_rows; intros Hex; generalize (@nil value).
  induction Hex as [row rows Hrow|row rows _ IH]; intros acc; simpl;
    unfold format_row at 1.
  - now rewrite (format_cols_missing Hrow).
  - destruct (columns_present_or_missing columns row) as [Hhas|Hlacks].
    + pose proof (format_cols_ok Hhas []) as Hitem.
      destruct (for_each (format_col row) columns []); [|discriminate].
      cbn [bind]; apply IH.
    + now rewrite (format_cols_missing Hlacks).
Qed.

(** X1.  [_format_rows] returns exactly when every row has every projected
    column, with one output per row, and raises [KeyError] as soon as
    one row lacks one column, whatever the other rows are. *)
Theorem format_rows_raises_on_missing_column (rows : list Record)
  (columns : list string) :
  (Forall (has_columns columns) rows ->
   exists out, _format_rows rows columns = Ok out
               /\ List.length out = List.length rows)
  /\ (Exists (lacks_column columns) rows ->
      _format_rows rows columns = Raise KeyError).
Proof.
  split; [apply format_rows_present | apply format_rows_missing].
Qed.

Lemma dict_keys_set_old {V : Type} (d : list (string * V)) (k : string) (v : V) :
  In k (map fst d) -> map fst (dict_set d k v) = map fst d.
Proof.
  induction d as [|[k' v'] d IH]; simpl; intros Hin; [destruct Hin|].
  destruct (String.eqb_spec k' k) as [->|Hne]; [reflexivity|].
  simpl; f_equal; apply IH; destruct Hin; [contradiction | assumption].
Qed.

Lemma fresh_among_spec (names : list string) (name : string) :
  fresh_among names name = true <-> ~ In name names.
Proof.
  unfold fresh_among; rewrite negb_true_iff, <- not_true_iff_false, existsb_exists.
  split; intros H Hin; apply H.
  - exists name; split; [exact Hin | apply String.eqb_refl].
  - destruct Hin as (x & Hx & Heq); apply String.eqb_eq in Heq; now subst.
Qed.

Lemma filter_fresh_snoc (names : list string) (c : string) (l : list string) :
  filter (fresh_among (names ++ [c])) l
  = filter (fresh_among names) (filter (fun y => negb (String.eqb y c)) l).
Proof.
  induction l as [|y l IH]; simpl; [reflexivity|].
  assert (E : fresh_among (names ++ [c]) y
              = negb (String.eqb y c) && fresh_among names y).
  { unfold fresh_among; rewrite existsb_app; simpl; rewrite orb_false_r.
    rewrite negb_orb; apply andb_comm. }
  rewrite E; destruct (String.eqb y c); simpl; [exact IH|].
  destruct (fresh_among names y); simpl; now rewrite IH.
Qed.

Lemma filter_fresh_known (names : list string) (c : string) (l : list string) :
  In c names ->
  filter (fresh_among names) (filter (fun y => negb (String.eqb y c)) l)
  = filter (fresh_among names) l.
Proof.
  intros Hin; induction l as [|y l IH]; simpl; [reflexivity|].
  destruct (String.eqb_spec y c) as [->|Hne]; simpl.
  - replace (fresh_among names c) with false; [exact IH|].
    symmetry; apply not_true_iff_false; rewrite fresh_among_spec; auto.
  - destruct (fresh_among names y); now rewrite IH.
Qed.

(** The inner loop over columns the row has, repeated or not. *)
Lemma format_cols_general (row : Record) (columns : list string) :
  has_columns columns row ->
  forall item : dict,
    exists item',
      for_each (format_col row) columns item = Ok item'
      /\ dict_keys item'
         = dict_keys item
           ++ filter (fresh_among (dict_keys item)) (first_occurrences columns)
      /\ (forall col val, In col columns -> dict_lookup row col = Some val ->
            dict_lookup item' col = Some (normalized val))
      /\ (forall k, ~ In k columns -> dict_lookup item' k = dict_lookup item k).
Proof.
  unfold dict_keys, has_columns.
  induction columns as [|c columns IH]; intros Hhas item.
  - exists item; simpl; rewrite app_nil_r; repeat split; intros; contradiction.
  - destruct (dict_lookup row c) as [v|] eqn:Ev;
      [|exfalso; apply (Hhas c); [now left | exact Ev]].
    destruct (IH (fun col H => Hhas col (or_intror H))
                (dict_set item c (format_value v)))
      as (item' & Hrun & Hkeys & Hval & Hold).
    exists item'; simpl; unfold format_col at 1, record_get; rewrite Ev; cbn [bind].
    split; [exact Hrun|]; split; [|split].
    + rewrite Hkeys.
      destruct (fresh_among (map fst item) c) eqn:Hc.
      * apply fresh_among_spec in Hc.
        rewrite dict_keys_set_new by exact Hc.
        rewrite filter_fresh_snoc, <- app_assoc; reflexivity.
      * assert (Hin : In c (map fst item)).
        { destruct (in_dec string_dec c (map fst item)) as [Hin|Hnot];
            [exact Hin|].
          apply fresh_among_spec in Hnot; congruence. }
        rewrite dict_keys_set_old by exact Hin.
        now rewrite filter_fresh_known.
    + intros col val [<-|Hin] Hrow; [|now apply Hval].
      destruct (in_dec string_dec c columns) as [Hin|Hnot]; [now apply Hval|].
      rewrite (Hold c Hnot), dict_lookup_set_eq, format_value_normalized.
      congruence.
    + intros k Hk; rewrite Hold by (intros Hin; apply Hk; now right).
      apply dict_lookup_set_neq; intros ->; apply Hk; now left.
Qed.

Lemma filter_fresh_nil (l : list string) : filter (fresh_among []) l = l.
Proof. induction l as [|y l IH]; simpl; [reflexivity | now rewrite IH]. Qed.

(** X2.  When a column name is repeated in the projection, every output
    dictionary has each projected name once, at the place of its first
    occurrence, and still maps it to the normalized value of the row. *)
Theorem format_rows_repeated_columns (rows : list Record) (columns : list string) :
  Forall (has_columns columns) rows ->
  exists items : list dict,
    _format_rows rows columns = Ok (map VDict items)
    /\ Forall2 (fun row item =>
                  dict_keys item = first_occurrences columns
                  /\ forall col val, In col columns ->
                       dict_lookup row col = Some val ->
                       dict_lookup item col = Some (normalized val))
         rows items.
Proof.
  intros Hrows.
  assert (Hloop : forall acc : list value,
            exists items : list dict,
              for_each (format_row columns) rows acc = Ok (acc ++ map VDict items)
              /\ Forall2 (fun row item =>
                            dict_keys item = first_occurrences columns
                            /\ forall col val, In col columns ->
                                 dict_lookup row col = Some val ->
                                 dict_lookup item col = Some (normalized val))
                   rows items).
  { induction Hrows as [|row rows Hrow Hrows IH]; intros acc.
    - exists []; simpl; rewrite app_nil_r; split; [reflexivity | constructor].
    - destruct (format_cols_general Hrow []) as (item & Hrun & Hkeys & Hval & _).
      destruct (IH (acc ++ [VDict item])) as (items & Hrest & Hall).
      exists (item :: items); simpl; unfold format_row at 1.
      rewrite Hrun; cbn [bind]; rewrite Hrest, <- app_assoc.
      split; [reflexivity|].
      constructor; [|exact Hall].
      split; [|exact Hval].
      rewrite Hkeys; simpl; apply filter_fresh_nil. }
  destruct (Hloop []) as (items & Hrun & Hall).
  exists items; split; assumption.
Qed.

Lemma format_value_plain (val : value) : plain_value (format_value val) = true.
Proof. now destruct val. Qed.

Lemma dict_set_forall (Q : value -> Prop) (d : dict) (k : string) (v : value) :
  Forall (fun kv => Q (snd kv)) d -> Q v ->
  Forall (fun kv => Q (snd kv)) (dict_set d k v).
Proof.
  intros Hd Hv; induction Hd as [|[k' v'] d Hkv Hd IH]; simpl.
  - now repeat constructor.
  - destruct (String.eqb k' k); constructor; assumption.
Qed.

(** X3.  Whatever the rows hold, every value of every output dictionary is
    [None], a string, a mapping or a list: no number, boolean, timestamp
    or identifier leaves the normalizer as such. *)
Theorem format_rows_values_plain (rows : list Record) (columns : list string)
  (out : list value) :
  _format_rows rows columns = Ok out ->
  Forall (fun x => exists item : dict,
            x = VDict item
            /\ Forall (fun kv => plain_value (snd kv) = true) item) out.
Proof.
  assert (Hcols : forall row cols item item',
            Forall (fun kv => plain_value (snd kv) = true) item ->
            for_each (format_col row) cols item = Ok item' ->
            Forall (fun kv => plain_value (snd kv) = true) item').
  { intros row cols; induction cols as [|c cols IH]; intros item item' Hitem H;
      simpl in H.
    - now injection H as <-.
    - apply bind_ok in H as (item1 & Hcol & H).
      unfold format_col in Hcol; apply bind_ok in Hcol as (v & _ & Hcol).
      injection Hcol as <-.
      eapply IH; [|exact H].
      apply dict_set_forall with (Q := fun x => plain_value x = true);
        [exact Hitem | apply format_value_plain]. }
  unfold _format_rows.
  assert (Hloop : forall acc,
            Forall (fun x => exists item : dict,
                      x = VDict item
                      /\ Forall (fun kv => plain_value (snd kv) = true) item) acc ->
            for_each (format_row columns) rows acc = Ok out ->
            Forall (fun x => exists item : dict,
                      x = VDict item
                      /\ Forall (fun kv => plain_value (snd kv) = true) item) out).
  { induction rows as [|row rows IH]; intros acc Hacc H; simpl in H.
    - now injection H as <-.
    - apply bind_ok in H as (acc' & Hrow & H).
      unfold format_row in Hrow; apply bind_ok in Hrow as (item & Hitem & Hrow).
      injection Hrow as <-.
      apply (IH (acc ++ [VDict item])); [|exact H].
      apply Forall_app; split; [exact Hacc|].
      constructor; [|constructor].
      exists item; split; [reflexivity|].
      apply (Hcols row columns [] item); [constructor | exact Hitem]. }
  apply Hloop; constructor.
Qed.

Lemma format_rows_from (columns : list string) (rows : list Record)
  (acc : list value) :
  for_each (format_row columns) rows acc
  = (out <- for_each (format_row columns) rows [] ;; Ok (acc ++ out)).
Proof.
  revert acc; induction rows as [|row rows IH]; intros acc; simpl.
  - now rewrite app_nil_r.
  - unfold format_row at 1 3.
    destruct (for_each (format_col row) columns []) as [item|e]; cbn [bind];
      [|reflexivity].
    rewrite (IH (acc ++ [VDict item])), (IH ([] ++ [VDict item])).
    destruct (for_each (format_row columns) rows []) as [out|e]; cbn [bind];
      [|reflexivity].
    now rewrite <- app_assoc.
Qed.

(** X4.  Normalizing two batches of rows one after the other gives the same
    as normalizing them at once, errors included. *)
Theorem format_rows_batches (rows1 rows2 : list Record) (columns : list string) :
  _format_rows (rows1 ++ rows2) columns
  = (out1 <- _format_rows rows1 columns ;;
     out2 <- _format_rows rows2 columns ;;
     Ok (out1 ++ out2)).
Proof.
  unfold _format_rows; rewrite for_each_app.
  destruct (for_each (format_row columns) rows1 []) as [out1|e]; cbn [bind];
    [|reflexivity].
  apply format_rows_from.
Qed.

(* ------------------------------------------------------------------ *)
(** ** More on the node loops and the row loop *)
(* ------------------------------------------------------------------ *)

(** X5.  A node of another kind is passed over by each search, whatever its
    other fields hold, as long as its [data] is a mapping: a missing
    [type], a [type] that is not a string and a malformed candidate field
    in such a node raise nothing. *)
Theorem other_kind_nodes_ignored (keyword_lower : string) (acc : list value)
  (node : value) (d : dict) :
  node_data node = Some d ->
  (kind_is d "tool" = false -> tool_node_body keyword_lower acc node = Ok acc)
  /\ (kind_is d "llm" = false -> llm_node_body keyword_lower acc node = Ok acc).
Proof.
  intros Hd; split; intros Hkind.
  - now rewrite (tool_node_body_data _ _ _ Hd), Hkind.
  - now rewrite (llm_node_body_data _ _ _ Hd), Hkind.
Qed.

Lemma keyword_in_either_first (kwl a : string) (b : value) :
  contains kwl (lower a) = true -> keyword_in_either kwl (VStr a) b = Ok true.
Proof. unfold keyword_in_either; simpl; now intros ->. Qed.

Lemma keyword_in_either_second_raises (kwl a : string) (b : value) :
  contains kwl (lower a) = false -> (forall s, b <> VStr s) ->
  keyword_in_either kwl (VStr a) b = Raise AttributeError.
Proof.
  unfold keyword_in_either; simpl; intros -> Hb.
  destruct b; try reflexivity; now destruct (Hb s).
Qed.

(** X6.  The two candidate fields are tested in order and the second only
    when the first does not match: a Tool Node whose [provider_id]
    contains the keyword is reported even when its [tool_name] is not a
    string, while the same [tool_name] makes the search raise
    [AttributeError] when [provider_id] does not match.  The LLM search
    treats the resolved model name and provider the same way. *)
Theorem first_field_match_short_circuits (keyword_lower : string)
  (acc : list value) (node : value) (d : dict) (first : string) :
  node_data node = Some d ->
  (kind_is d "tool" = true -> field_or_empty d "provider_id" = VStr first ->
   (contains keyword_lower (lower first) = true ->
    tool_node_body keyword_lower acc node = Ok (acc ++ [tool_entry node]))
   /\ (contains keyword_lower (lower first) = false ->
       (forall s, field_or_empty d "tool_name" <> VStr s) ->
       tool_node_body keyword_lower acc node = Raise AttributeError))
  /\ (kind_is d "llm" = true -> fst (llm_resolved d) = VStr first ->
      (contains keyword_lower (lower first) = true ->
       llm_node_body keyword_lower acc node = Ok (acc ++ [llm_entry node]))
      /\ (contains keyword_lower (lower first) = false ->
          (forall s, snd (llm_resolved d) <> VStr s) ->
          llm_node_body keyword_lower acc node = Raise AttributeError)).
Proof.
  intros Hd; split; intros Hkind Hfirst; split.
  - intros Hhit; rewrite (tool_node_body_data _ _ _ Hd), Hkind, Hfirst.
    now rewrite (keyword_in_either_first _ _ _ Hhit).
  - intros Hmiss Hsecond; rewrite (tool_node_body_data _ _ _ Hd), Hkind, Hfirst.
    now rewrite (keyword_in_either_second_raises _ _ Hmiss Hsecond).
  - intros Hhit; rewrite (llm_node_body_data _ _ _ Hd), Hkind, Hfirst.
    now rewrite (keyword_in_either_first _ _ _ Hhit).
  - intros Hmiss Hsecond; rewrite (llm_node_body_data _ _ _ Hd), Hkind, Hfirst.
    now rewrite (keyword_in_either_second_raises _ _ Hmiss Hsecond).
Qed.

Lemma contains_empty (hay : string) : contains "" hay = true.
Proof. rewrite contains_unfold; now destruct hay. Qed.

(** X7.  With an empty lower-cased keyword every well-shaped node of the
    target kind is reported: the empty string occurs in every text, the
    empty text of a missing field included. *)
Theorem empty_keyword_matches_all (acc : list value) (node : value) (d : dict) :
  node_data node = Some d ->
  (kind_is d "tool" = true -> tool_shaped node = true ->
   tool_node_body "" acc node = Ok (acc ++ [tool_entry node]))
  /\ (kind_is d "llm" = true -> llm_shaped node = true ->
      llm_node_body "" acc node = Ok (acc ++ [llm_entry node])).
Proof.
  intros Hd; split; intros Hkind Hshape.
  - unfold tool_shaped in Hshape; rewrite Hd, Hkind in Hshape.
    apply andb_true_iff in Hshape as [Hp _].
    apply str_or_absent_text in Hp as [p Hp].
    rewrite (tool_node_body_data _ _ _ Hd), Hkind, Hp.
    now rewrite (keyword_in_either_first _ _ _ (contains_empty (lower p))).
  - unfold llm_shaped in Hshape; rewrite Hd, Hkind in Hshape.
    apply llm_resolved_shaped in Hshape as (a & b & Hres).
    rewrite (llm_node_body_data _ _ _ Hd), Hkind, Hres; simpl fst.
    now rewrite (keyword_in_either_first _ _ _ (contains_empty (lower a))).
Qed.

(** X8.  A [model] that is JSON null is not treated as absent: the flat branch
    reads it with [str], so the node's model is the text ["None"], the node
    is found by every keyword that occurs in the lower-cased ["None"] or in
    the provider, and nothing is raised. *)
Theorem null_model_reads_as_text (keyword_lower : string) (acc : list value)
  (node : value) (d : dict) :
  node_data node = Some d ->
  kind_is d "llm" = true ->
  dict_lookup d "model" = Some VNone ->
  llm_node_body keyword_lower acc node =
  Ok (if contains keyword_lower (lower "None")
         || contains keyword_lower (lower (py_str (field_or_empty d "provider")))
      then acc ++ [VDict [("node_id", node_id_of node);
                          ("node_title", field_or_empty d "title");
                          ("model", VStr "None");
                          ("provider", VStr (py_str (field_or_empty d "provider")))]]
      else acc).
Proof.
  intros Hd Hkind Hmodel.
  assert (Hres : llm_resolved d
                 = (VStr "None", VStr (py_str (field_or_empty d "provider")))).
  { unfold llm_resolved, field_or_empty at 1; now rewrite Hmodel. }
  rewrite (llm_node_body_data _ _ _ Hd), Hkind, Hres; simpl fst; simpl snd.
  rewrite keyword_in_either_text; cbn [bind].
  unfold llm_entry, data_of; rewrite Hd, Hres.
  now destruct (_ || _).
Qed.

(** What a node adds to the match list does not depend on the list. *)
Lemma tool_node_body_from (kwl : string) (acc : list value) (node : value) :
  tool_node_body kwl acc node
  = (new <- tool_node_body kwl [] node ;; Ok (acc ++ new)).
Proof.
  destruct (node_data node) as [d|] eqn:Hd.
  - rewrite !(tool_node_body_data _ _ _ Hd).
    destruct (kind_is d "tool"); cbn [bind]; [|now rewrite app_nil_r].
    destruct (keyword_in_either _ _ _) as [[|]|e]; cbn [bind]; try reflexivity.
    now rewrite app_nil_r.
  - now rewrite !(tool_node_body_none _ _ _ Hd).
Qed.

Lemma llm_node_body_from (kwl : string) (acc : list value) (node : value) :
  llm_node_body kwl acc node
  = (new <- llm_node_body kwl [] node ;; Ok (acc ++ new)).
Proof.
  destruct (node_data node) as [d|] eqn:Hd.
  - rewrite !(llm_node_body_data _ _ _ Hd).
    destruct (kind_is d "llm"); cbn [bind]; [|now rewrite app_nil_r].
    destruct (keyword_in_either _ _ _) as [[|]|e]; cbn [bind]; try reflexivity.
    now rewrite app_nil_r.
  - now rewrite !(llm_node_body_none _ _ _ Hd).
Qed.

Lemma for_each_from {A : Type} (body : list value -> A -> result (list value)) :
  (forall acc a, body acc a = (new <- body [] a ;; Ok (acc ++ new))) ->
  forall l acc,
    for_each body l acc = (out <- for_each body l [] ;; Ok (acc ++ out)).
Proof.
  intros Hbody l; induction l as [|a l IH]; intros acc; simpl.
  - now rewrite app_nil_r.
  - rewrite (Hbody acc a), (Hbody [] a).
    destruct (body [] a) as [new|e]; cbn [bind app]; [|reflexivity].
    rewrite (IH (acc ++ new)), (IH new).
    destruct (for_each body l []) as [out|e]; cbn [bind]; [|reflexivity].
    now rewrite <- app_assoc.
Qed.

(** X9.  Matching a document whose node list is a concatenation gives the
    matches of the first part followed by those of the second, and raises
    what the first part raises, else what the second does. *)
Theorem matcher_concatenation (keyword_lower : string) (nodes1 nodes2 : list value) :
  match_nodes (tool_node_body keyword_lower) (document (nodes1 ++ nodes2))
  = (out1 <- match_nodes (tool_node_body keyword_lower) (document nodes1) ;;
     out2 <- match_nodes (tool_node_body keyword_lower) (document nodes2) ;;
     Ok (out1 ++ out2))
  /\ match_nodes (llm_node_body keyword_lower) (document (nodes1 ++ nodes2))
     = (out1 <- match_nodes (llm_node_body keyword_lower) (document nodes1) ;;
        out2 <- match_nodes (llm_node_body keyword_lower) (document nodes2) ;;
        Ok (out1 ++ out2)).
Proof.
  unfold match_nodes, document, graph_nodes; simpl; split; rewrite for_each_app.
  - destruct (for_each _ nodes1 []) as [out1|e]; cbn [bind]; [|reflexivity].
    apply for_each_from, tool_node_body_from.
  - destruct (for_each _ nodes1 []) as [out1|e]; cbn [bind]; [|reflexivity].
    apply for_each_from, llm_node_body_from.
Qed.

(** What one row does to the result list when it does not raise. *)
Lemma workflow_row_body_ok (key : string)
  (node_body : list value -> value -> result (list value))
  (results results' : list value) (row : Record) :
  workflow_row_body key node_body results row = Ok results' ->
  results' = results
  \/ exists g graph matching entry,
       record_get row "graph" = Ok g /\ try_json_loads g = Ok (Some graph)
       /\ match_nodes node_body graph = Ok matching /\ matching <> []
       /\ workflow_entry key row matching = Ok entry
       /\ results' = results ++ [entry].
Proof.
  unfold workflow_row_body; intros H.
  apply bind_ok in H as (g & Hg & H).
  destruct (negb (truthy g)); [left; now injection H|].
  apply bind_ok in H as (parsed & Hload & H).
  destruct parsed as [graph|]; [|left; now injection H].
  apply bind_ok in H as (matching & Hmatch & H).
  destruct matching as [|m matching]; simpl in H; [left; now injection H|].
  apply bind_ok in H as (entry & Hentry & H); injection H as <-.
  right; exists g, graph, (m :: matching), entry; repeat split; auto; discriminate.
Qed.

Lemma subsequence_length {A : Type} (l1 l2 : list A) :
  subsequence l1 l2 -> List.length l1 <= List.length l2.
Proof. induction 1; simpl; lia. Qed.

Lemma workflow_rows_follow (key : string)
  (node_body : list value -> value -> result (list value)) (rows : list Record) :
  forall acc out,
    for_each (workflow_row_body key node_body) rows acc = Ok out ->
    exists kept new,
      out = acc ++ new /\ subsequence kept rows
      /\ Forall2 (fun row entry =>
                    exists g graph matching,
                      record_get row "graph" = Ok g
                      /\ try_json_loads g = Ok (Some graph)
                      /\ match_nodes node_body graph = Ok matching
                      /\ matching <> []
                      /\ workflow_entry key row matching = Ok entry)
           kept new.
Proof.
  induction rows as [|row rows IH]; intros acc out H; simpl in H.
  - injection H as <-; exists [], []; rewrite app_nil_r.
    repeat split; constructor.
  - apply bind_ok in H as (acc' & Hrow & H).
    destruct (IH _ _ H) as (kept & new & -> & Hsub & Hall).
    apply workflow_row_body_ok in Hrow
      as [->|(g & graph & matching & entry & Hg & Hl & Hm & Hne & He & ->)].
    + exists kept, new; repeat split; [now constructor | exact Hall].
    + exists (row :: kept), (entry :: new); rewrite <- app_assoc.
      repeat split; [now constructor|].
      constructor; [|exact Hall].
      exists g, graph, matching; auto.
Qed.

(** X10.  The results of both searches follow the rows: each result is the
    entry of one row whose document parsed and gave a match list that is
    not empty, the results come in the order of their rows, and there are
    no more results than rows. *)
Theorem results_follow_rows (keyword : string) (rows : list Record)
  (results : list value) :
  (plugin_results keyword rows = Ok results ->
   List.length results <= List.length rows
   /\ exists kept,
        subsequence kept rows
        /\ Forall2 (fun row entry =>
                      exists g graph matching,
                        record_get row "graph" = Ok g
                        /\ try_json_loads g = Ok (Some graph)
                        /\ match_nodes (tool_node_body (lower keyword)) graph
                           = Ok matching
                        /\ matching <> []
                        /\ workflow_entry "matching_tools" row matching = Ok entry)
             kept results)
  /\ (llm_results keyword rows = Ok results ->
      List.length results <= List.length rows
      /\ exists kept,
           subsequence kept rows
           /\ Forall2 (fun row entry =>
                         exists g graph matching,
                           record_get row "graph" = Ok g
                           /\ try_json_loads g = Ok (Some graph)
                           /\ match_nodes (llm_node_body (lower keyword)) graph
                              = Ok matching
                           /\ matching <> []
                           /\ workflow_entry "matching_llms" row matching = Ok entry)
                kept results).
Proof.
  split; intros H; apply workflow_rows_follow in H
    as (kept & new & -> & Hsub & Hall); simpl.
  - split; [|now exists kept].
    rewrite <- (Forall2_length Hall); now apply subsequence_length.
  - split; [|now exists kept].
    rewrite <- (Forall2_length Hall); now apply subsequence_length.
Qed.

Lemma workflow_row_body_raises (key : string)
  (node_body : list value -> value -> result (list value))
  (results : list value) (row : Record) (g graph : value) (e : exn) :
  record_get row "graph" = Ok g -> truthy g = true ->
  try_json_loads g = Ok (Some graph) ->
  match_nodes node_body graph = Raise e ->
  workflow_row_body key node_body results row = Raise e.
Proof.
  intros Hg Ht Hload Hmatch; unfold workflow_row_body.
  rewrite Hg; cbn [bind]; rewrite Ht, Hload; cbn [bind negb].
  now rewrite Hmatch.
Qed.

Lemma match_nodes_not_mapping
  (node_body : list value -> value -> result (list value)) (graph : value) :
  is_dict graph = false -> match_nodes node_body graph = Raise AttributeError.
Proof. destruct graph; simpl; try reflexivity; discriminate. Qed.

(** X11.  Only a document that fails to parse is skipped.  Once the graph of
    a row has parsed, an exception of its node loop ends the whole
    search with that exception, and a document that is not a mapping,
    such as a JSON list or number, ends it with [AttributeError], the
    rows before and after notwithstanding. *)
Theorem parsed_document_errors_abort (keyword : string) (pre post : list Record)
  (row : Record) (g graph : value) (before : list value) :
  record_get row "graph" = Ok g -> truthy g = true ->
  try_json_loads g = Ok (Some graph) ->
  (plugin_results keyword pre = Ok before ->
   (forall e, match_nodes (tool_node_body (lower keyword)) graph = Raise e ->
      plugin_results keyword (pre ++ row :: post) = Raise e)
   /\ (is_dict graph = false ->
       plugin_results keyword (pre ++ row :: post) = Raise AttributeError))
  /\ (llm_results keyword pre = Ok before ->
      (forall e, match_nodes (llm_node_body (lower keyword)) graph = Raise e ->
         llm_results keyword (pre ++ row :: post) = Raise e)
      /\ (is_dict graph = false ->
          llm_results keyword (pre ++ row :: post) = Raise AttributeError)).
Proof.
  intros Hg Ht Hload; unfold plugin_results, llm_results; split; intros Hpre.
  - assert (Hraise : forall e,
              match_nodes (tool_node_body (lower keyword)) graph = Raise e ->
              for_each (workflow_row_body "matching_tools"
                          (tool_node_body (lower keyword)))
                (pre ++ row :: post) [] = Raise e).
    { intros e He; eapply for_each_raises_at; [exact Hpre|].
      eapply workflow_row_body_raises; eassumption. }
    split; [exact Hraise|].
    intros Hshape; apply Hraise, match_nodes_not_mapping, Hshape.
  - assert (Hraise : forall e,
              match_nodes (llm_node_body (lower keyword)) graph = Raise e ->
              for_each (workflow_row_body "matching_llms"
                          (llm_node_body (lower keyword)))
                (pre ++ row :: post) [] = Raise e).
    { intros e He; eapply for_each_raises_at; [exact Hpre|].
      eapply workflow_row_body_raises; eassumption. }
    split; [exact Hraise|].
    intros Hshape; apply Hraise, match_nodes_not_mapping, Hshape.
Qed.

(* ------------------------------------------------------------------ *)
(** ** More on the three tools *)
(* ------------------------------------------------------------------ *)

(** X12.  When the three queries return rows that carry their selected
    columns, [search_dify_credentials] returns the envelope whose result
    mapping has the three sources in the order of the queries, each with
    one normalized dictionary per fetched row, and whose summary gives,
    source by source, the number of rows of that list. *)
Theorem credentials_envelope_counts (keyword : string) (rows1 rows2 rows3 : list Record) :
  fetch SelectProviderModelCredentials (like_pattern keyword) = Ok rows1 ->
  fetch SelectToolBuiltinProviders (like_pattern keyword) = Ok rows2 ->
  fetch SelectWorkflowsByEnvironment (like_pattern keyword) = Ok rows3 ->
  Forall (has_columns credential_columns) rows1 ->
  Forall (has_columns tool_provider_columns) rows2 ->
  Forall (has_columns workflow_columns) rows3 ->
  exists out1 out2 out3,
    _format_rows rows1 credential_columns = Ok out1
    /\ _format_rows rows2 tool_provider_columns = Ok out2
    /\ _format_rows rows3 workflow_columns = Ok out3
    /\ List.length out1 = List.length rows1
    /\ List.length out2 = List.length rows2
    /\ List.length out3 = List.length rows3
    /\ search_dify_credentials_output keyword
       = Ok (envelope
               (count_line "provider_model_credentials" (List.length out1)
                ++ " | " ++ count_line "tool_builtin_providers" (List.length out2)
                ++ " | " ++ count_line "workflows" (List.length out3))%string
               keyword
               (VDict [("provider_model_credentials", VList out1);
                       ("tool_builtin_providers", VList out2);
                       ("workflows", VList out3)])).
Proof.
  intros F1 F2 F3 H1 H2 H3.
  destruct (format_rows_present H1) as (out1 & E1 & L1).
  destruct (format_rows_present H2) as (out2 & E2 & L2).
  destruct (format_rows_present H3) as (out3 & E3 & L3).
  exists out1, out2, out3; repeat split; try assumption.
  unfold search_dify_credentials_output; cbv zeta.
  unfold credential_columns, tool_provider_columns, workflow_columns in *.
  rewrite F1; cbn [bind]; rewrite E1; cbn [bind].
  rewrite F2; cbn [bind]; rewrite E2; cbn [bind].
  rewrite F3; cbn [bind]; rewrite E3; cbn [bind].
  reflexivity.
Qed.

(** X13.  No source is isolated from the others: when any one of the three
    queries of [search_dify_credentials] raises, the call raises and no
    envelope is returned, whatever the other two return; an exception of
    the first query, and of the one query of each graph search, is the
    exception of the call. *)
Theorem query_failure_aborts (keyword : string) (e : exn) :
  (fetch SelectProviderModelCredentials (like_pattern keyword) = Raise e ->
   search_dify_credentials keyword = Raise e)
  /\ (fetch SelectToolBuiltinProviders (like_pattern keyword) = Raise e ->
      is_ok (search_dify_credentials keyword) = false)
  /\ (fetch SelectWorkflowsByEnvironment (like_pattern keyword) = Raise e ->
      is_ok (search_dify_credentials keyword) = false)
  /\ (fetch SelectWorkflowsByGraph (like_pattern keyword) = Raise e ->
      search_workflows_by_plugin keyword = Raise e
      /\ search_workflows_by_llm keyword = Raise e).
Proof.
  unfold search_dify_credentials, search_dify_credentials_output,
    search_workflows_by_plugin, search_workflows_by_plugin_output,
    search_workflows_by_llm, search_workflows_by_llm_output; cbv zeta.
  split; [|split; [|split]]; intros H.
  - now rewrite H.
  - destruct (fetch SelectProviderModelCredentials _); cbn [bind]; [|reflexivity].
    destruct (_format_rows _ _); cbn [bind]; [|reflexivity].
    now rewrite H.
  - destruct (fetch SelectProviderModelCredentials _); cbn [bind]; [|reflexivity].
    destruct (_format_rows _ _); cbn [bind]; [|reflexivity].
    destruct (fetch SelectToolBuiltinProviders _); cbn [bind]; [|reflexivity].
    destruct (_format_rows _ _); cbn [bind]; [|reflexivity].
    now rewrite H.
  - now rewrite H.
Qed.

(* ------------------------------------------------------------------ *)
(** ** More on the middleware *)
(* ------------------------------------------------------------------ *)

Lemma assign_all_other_keys {V : Type} (pairs : list (string * V)) (k : string) :
  (forall kv, In kv pairs -> fst kv <> k) ->
  forall d : list (string * V),
    dict_lookup (fold_left (fun d kv => dict_set d (fst kv) (snd kv)) pairs d) k
    = dict_lookup d k.
Proof.
  induction pairs as [|[k' v'] pairs IH]; intros Hother d; simpl; [reflexivity|].
  rewrite IH by (intros kv Hin; apply Hother; now right).
  apply dict_lookup_set_neq; apply (Hother (k', v')); now left.
Qed.

Lemma dict_of_pairs_last {V : Type} (before after : list (string * V))
  (k : string) (v : V) :
  (forall kv, In kv after -> fst kv <> k) ->
  dict_lookup (dict_of_pairs (before ++ (k, v) :: after)) k = Some v.
Proof.
  intros Hafter; unfold dict_of_pairs; rewrite fold_left_app; simpl.
  rewrite assign_all_other_keys by exact Hafter.
  apply dict_lookup_set_eq.
Qed.

(** X14.  When several headers are named [authorization], the middleware reads
    the last one, whatever the earlier ones and the other headers are. *)
Theorem last_authorization_header_wins (sc : scope)
  (before after : list (string * string)) (v : string) :
  scope_headers sc = Some (before ++ ("authorization", v) :: after) ->
  no_authorization after ->
  authorization_of sc = v.
Proof.
  unfold authorization_of, no_authorization; intros -> Hafter.
  now rewrite dict_of_pairs_last.
Qed.

(** X15.  The middleware forwards the connection it was given, never another
    one, and on a protected deployment it forwards an HTTP or WebSocket
    connection only when the header it reads is exactly the bearer
    credential; an undecodable header is no way around the check. *)
Theorem middleware_forwards_only_bearer (api_key : string) (sc sc' : scope) :
  middleware_call api_key sc = Ok (Forward sc') ->
  sc' = sc
  /\ (api_key = "" \/ http_shaped sc = false
      \/ authorization_of sc = ("Bearer " ++ api_key)%string).
Proof.
  unfold middleware_call; fold (http_shaped sc); fold (authorization_of sc).
  destruct (http_shaped sc); simpl; [|intros H; inversion H; subst; auto].
  destruct (String.eqb_spec api_key "") as [->|Hkey]; simpl;
    [intros H; inversion H; subst; auto|].
  unfold bytes_decode; destruct (utf8_valid (authorization_of sc)); cbn [bind];
    [|intros H; discriminate H].
  match goal with
  | |- context [String.eqb ?a ?b] => destruct (String.eqb_spec a b) as [Heq|Hne]
  end; simpl; intros H; [inversion H; subst; auto | discriminate H].
Qed.

Lemma utf8_valid_bearer (api_key : string) :
  utf8_valid ("Bearer " ++ api_key) = utf8_valid api_key.
Proof. reflexivity. Qed.

(** X16.  A connection whose header is the bearer credential of a key that is
    well-formed text is forwarded unchanged. *)
Theorem middleware_accepts_bearer (api_key : string) (sc : scope) :
  utf8_valid api_key = true ->
  authorization_of sc = ("Bearer " ++ api_key)%string ->
  middleware_call api_key sc = Ok (Forward sc).
Proof.
  intros Hkey Hauth.
  unfold middleware_call; fold (http_shaped sc); fold (authorization_of sc).
  destruct (http_shaped sc); simpl; [|reflexivity].
  destruct (String.eqb api_key ""); simpl; [reflexivity|].
  unfold bytes_decode; rewrite Hauth, utf8_valid_bearer, Hkey; cbn [bind].
  now rewrite String.eqb_refl.
Qed.

(** X17.  On a protected deployment an HTTP or WebSocket connection without
    headers, or with no header named exactly [authorization], gets the
    401 response. *)
Theorem middleware_rejects_missing_header (api_key : string) (sc : scope) :
  api_key <> "" -> http_shaped sc = true ->
  (scope_headers sc = None
   \/ exists headers, scope_headers sc = Some headers /\ no_authorization headers) ->
  middleware_call api_key sc = Ok unauthorized.
Proof.
  intros Hkey Hhttp Hmissing.
  assert (Hauth : authorization_of sc = "").
  { unfold authorization_of.
    destruct Hmissing as [->|(headers & -> & Hno)]; [reflexivity|].
    unfold dict_of_pairs; rewrite assign_all_other_keys by exact Hno.
    reflexivity. }
  rewrite middleware_decodable; [|exact Hkey | exact Hhttp | now rewrite Hauth].
  now rewrite Hauth.
Qed.

(** X18.  On a protected deployment an HTTP or WebSocket connection whose
    header is well-formed text other than the bearer credential gets the
    401 response with the JSON error body, and is not forwarded. *)
Theorem middleware_rejects_wrong_credential (api_key : string) (sc : scope) :
  api_key <> "" -> http_shaped sc = true ->
  utf8_valid (authorization_of sc) = true ->
  authorization_of sc <> ("Bearer " ++ api_key)%string ->
  middleware_call api_key sc
  = Ok (Respond 401 (VDict [("error", VStr "Unauthorized");
                            ("message", VStr "Invalid or missing API key")])).
Proof.
  intros Hkey Hhttp Hvalid Hwrong.
  rewrite middleware_decodable by assumption.
  destruct (String.eqb_spec (authorization_of sc) ("Bearer " ++ api_key)%string);
    [contradiction | reflexivity].
Qed.

(** X19.  Access is open when [MCP_API_KEY] is unset or empty, and a
    connection that is neither HTTP nor WebSocket, such as the lifespan
    protocol, is handed on without a check even when a key is set. *)
Theorem middleware_open_access (api_key : string) (sc : scope) :
  middleware_call (middleware_init None) sc = Ok (Forward sc)
  /\ middleware_call (middleware_init (Some "")) sc = Ok (Forward sc)
  /\ (http_shaped sc = false -> middleware_call api_key sc = Ok (Forward sc)).
Proof.
  split; [|split].
  - apply middleware_open; now left.
  - apply middleware_open; now left.
  - intros Hshape; apply middleware_open; now right.
Qed.

(* ------------------------------------------------------------------ *)
(** ** More on the pool, and the prologue of the tools *)
(* ------------------------------------------------------------------ *)

Lemma pool_step_accounted (w : process) (c : pool_call) :
  pool_wf w -> pool_accounted w -> pool_accounted (pool_step w c).
Proof.
  unfold pool_wf, pool_accounted; intros [Hlive Hclosed] [Hnd Hall].
  destruct c as [cfg|]; simpl.
  - unfold get_pool, create_pool.
    destruct (_pool w) as [p|] eqn:E; simpl; [now rewrite E|].
    destruct (can_connect cfg); simpl; [|now rewrite E].
    split; [exact Hnd|].
    intros i Hi; destruct (Nat.eq_dec i (created w)) as [->|Hne].
    + right; eexists; split; reflexivity.
    + left; destruct (Hall i) as [Hin|(p & Hp & _)];
        [lia | exact Hin | discriminate Hp].
  - unfold close_pool; destruct (_pool w) as [p|] eqn:E; simpl; [|now rewrite E].
    split.
    + constructor; [now apply (Hlive p) | exact Hnd].
    + intros i Hi; left.
      destruct (Hall i Hi) as [Hin|(q & [= <-] & Hq)]; [now right | now left].
Qed.

Lemma pool_run_accounted (calls : list pool_call) (w : process) :
  pool_wf w -> pool_accounted w -> pool_accounted (pool_run calls w).
Proof.
  revert w; induction calls as [|c calls IH]; intros w Hwf Hacc; simpl;
    [exact Hacc|].
  apply IH; [now apply pool_step_wf | now apply pool_step_accounted].
Qed.

Lemma process_start_accounted : pool_accounted process_start.
Proof. split; simpl; [constructor | intros i Hi; lia]. Qed.

(** X20.  However acquisitions and teardowns follow one another, no pool is
    leaked and none is closed twice: every pool the process created is
    the one live pool or has been closed, and the closed pools are
    pairwise distinct. *)
Theorem pool_never_leaks (calls : list pool_call) :
  let w := pool_run calls process_start in
  NoDup (closed w)
  /\ forall i, i < created w ->
       In i (closed w) \/ exists p, _pool w = Some p /\ pool_id p = i.
Proof.
  exact (pool_run_accounted calls process_start_wf process_start_accounted).
Qed.

(** X21.  Teardown after any run, which is what [server_lifespan] does on
    exit, leaves no live pool and every pool of the process closed;
    a second teardown changes nothing. *)
Theorem shutdown_closes_every_pool (calls : list pool_call) :
  let w := close_pool (pool_run calls process_start) in
  lifecycle_of w = Uninitialized
  /\ (forall i, i < created w -> In i (closed w))
  /\ close_pool w = w.
Proof.
  pose proof (pool_run_accounted calls process_start_wf process_start_accounted)
    as [_ Hall].
  unfold close_pool, lifecycle_of.
  destruct (_pool (pool_run calls process_start)) as [p|] eqn:E; simpl.
  - repeat split.
    intros i Hi; destruct (Hall i Hi) as [Hin|(q & [= <-] & Hq)];
      [now right | now left].
  - rewrite E; repeat split.
    intros i Hi; destruct (Hall i Hi) as [Hin|(q & Hq & _)];
      [exact Hin | discriminate].
Qed.

(** X22.  The configuration of the acquisition that created the pool stays:
    while that pool lives, acquisitions with any other configuration, one
    the database cannot be reached with included, return the same pool
    with its first configuration and raise nothing. *)
Theorem pool_configuration_sticks (w : process) (first : DbConfig)
  (later : list DbConfig) :
  _pool w = None -> can_connect first = true ->
  exists p,
    get_pool first w = (Ok p, snd (get_pool first w))
    /\ pool_config p = first
    /\ fst (acquire_all later (snd (get_pool first w)))
       = map (fun _ => Ok p) later.
Proof.
  intros Hnone Hfirst; unfold get_pool at 1 2 3, create_pool.
  rewrite Hnone, Hfirst; simpl.
  eexists; repeat split.
  induction later as [|cfg later IH]; simpl; [reflexivity|].
  destruct (acquire_all later _) as [rs w'] eqn:E; simpl in *; now rewrite IH.
Qed.

Section StartupFacts.

Variable py_int : string -> option Z.

(** X23.  [_get_db_config] reads five variables and nothing else: two
    environments that agree on them give the same outcome; it fails
    exactly when [int] rejects the port text; and an environment with
    none of the five gives the defaults. *)
Theorem db_config_reads_five_variables (environ environ' : list (string * string)) :
  ((forall name, In name ["DB_HOST"; "DB_PORT"; "DB_USER"; "DB_PASSWORD";
                           "DB_DATABASE"] ->
      dict_lookup environ name = dict_lookup environ' name) ->
   _get_db_config py_int environ = _get_db_config py_int environ')
  /\ (_get_db_config py_int environ = None <->
      py_int (environ_get environ "DB_PORT" "5432") = None)
  /\ ((forall name, In name ["DB_HOST"; "DB_PORT"; "DB_USER"; "DB_PASSWORD";
                              "DB_DATABASE"] ->
         dict_lookup environ name = None) ->
      forall p, py_int "5432" = Some p ->
        _get_db_config py_int environ
        = Some {| host := "localhost"; port := p; user := "postgres";
                  password := ""; database := "dify" |}).
Proof using Type.
  unfold _get_db_config, environ_get; split; [|split].
  - intros Hsame.
    rewrite !(Hsame _ (or_introl eq_refl)),
      !(Hsame _ (or_intror (or_introl eq_refl))),
      !(Hsame _ (or_intror (or_intror (or_introl eq_refl)))),
      !(Hsame _ (or_intror (or_intror (or_intror (or_introl eq_refl))))),
      !(Hsame _ (or_intror (or_intror (or_intror (or_intror (or_introl eq_refl)))))).
    reflexivity.
  - destruct (py_int _); split; intros H; try reflexivity; discriminate.
  - intros Hnone p Hp.
    rewrite !(Hnone _ (or_introl eq_refl)),
      !(Hnone _ (or_intror (or_introl eq_refl))),
      !(Hnone _ (or_intror (or_intror (or_introl eq_refl)))),
      !(Hnone _ (or_intror (or_intror (or_intror (or_introl eq_refl))))),
      !(Hnone _ (or_intror (or_intror (or_intror (or_intror (or_introl eq_refl)))))).
    now rewrite Hp.
Qed.

(** X24.  A tool gets to its own work only after a configuration was read and
    a pool obtained: when a call returns, or fails with the exception of
    the tool itself, the pool is live afterwards and no pool was closed;
    with an invalid port the call fails before the pool is touched; with
    no pool and an unreachable database it fails with the connection
    error and leaves the state as it was. *)
Theorem tool_call_outcomes (A : Type) (environ : list (string * string))
  (w : process) (rest : result A) :
  (_get_db_config py_int environ = None ->
   tool_call py_int environ w rest = (ConfigError, w))
  /\ (forall cfg, _get_db_config py_int environ = Some cfg ->
        _pool w = None -> can_connect cfg = false ->
        tool_call py_int environ w rest = (Failed ConnectionError, w))
  /\ (forall cfg, _get_db_config py_int environ = Some cfg ->
        (_pool w <> None \/ can_connect cfg = true) ->
        fst (tool_call py_int environ w rest)
        = match rest with Ok a => Returned a | Raise e => Failed e end
        /\ _pool (snd (tool_call py_int environ w rest)) <> None
        /\ closed (snd (tool_call py_int environ w rest)) = closed w).
Proof using Type.
  unfold tool_call, get_pool, create_pool; split; [|split].
  - now intros ->.
  - now intros cfg -> -> ->.
  - intros cfg -> Hpool.
    destruct (_pool w) as [p|] eqn:E; simpl.
    + rewrite E; repeat split; discriminate.
    + destruct Hpool as [Hp|Hc]; [now destruct Hp|].
      rewrite Hc; simpl; repeat split; discriminate.
Qed.




End StartupFacts.

(* ------------------------------------------------------------------ *)
(** ** More on the result sets *)
(* ------------------------------------------------------------------ *)

Lemma limited_selection {A : Type} (le : A -> A -> bool) (keep : A -> bool)
  (table : list A) :
  (forall x y, le x y = true \/ le y x = true) ->
  (forall x y z, le x y = true -> le y z = true -> le x z = true) ->
  let rows := limit 50 (order_by le (filter keep table)) in
  (forall x, In x rows -> In x table /\ keep x = true)
  /\ List.length rows <= 50
  /\ StronglySorted (fun a b => le a b = true) rows
  /\ (List.length (filter keep table) <= 50 ->
      Permutation rows (filter keep table)).
Proof.
  intros Htotal Htrans; unfold limit; cbv zeta.
  pose proof (order_by_perm le (filter keep table)) as Hperm.
  split; [|split; [|split]].
  - intros x Hx; apply in_firstn in Hx.
    apply (Permutation_in x Hperm), filter_In in Hx; exact Hx.
  - apply firstn_le_length.
  - apply sorted_firstn, order_by_sorted; assumption.
  - intros Hfew; rewrite firstn_all2; [exact Hperm|].
    now rewrite (Permutation_length Hperm).
Qed.

(** X26.  The two credential statements return only rows of their table that
    match the pattern, at most 50 of them, most recently updated first
    with the rows without a timestamp in front; when at most 50 rows
    match, every matching row is returned, as often as the table has
    it. *)
Theorem credential_result_sets (table : list provider_model_credential)
  (tools : list tool_builtin_provider) (pattern : string) :
  let matches c := where_ilike (c_encrypted_config c) pattern
                   || where_ilike (c_credential_name c) pattern in
  let tool_matches t := where_ilike (t_encrypted_credentials t) pattern in
  let rows := select_provider_model_credentials table pattern in
  let tool_rows := select_tool_builtin_providers tools pattern in
  ((forall c, In c rows -> In c table /\ matches c = true)
   /\ List.length rows <= 50
   /\ most_recent_first c_updated_at rows
   /\ (List.length (filter matches table) <= 50 ->
       Permutation rows (filter matches table)))
  /\ ((forall t, In t tool_rows -> In t tools /\ tool_matches t = true)
      /\ List.length tool_rows <= 50
      /\ most_recent_first t_updated_at tool_rows
      /\ (List.length (filter tool_matches tools) <= 50 ->
          Permutation tool_rows (filter tool_matches tools))).
Proof.
  cbv zeta; split.
  - apply (limited_selection
             (fun a b => desc_le (c_updated_at a) (c_updated_at b))).
    + intros; apply desc_le_total.
    + intros x y z; apply desc_le_trans.
  - apply (limited_selection
             (fun a b => desc_le (t_updated_at a) (t_updated_at b))).
    + intros; apply desc_le_total.
    + intros x y z; apply desc_le_trans.
Qed.

(** X27.  The row the workflow statement keeps for an application is first
    under [updated_at DESC] among the matching rows of that application:
    no matching row of the application has a later timestamp, and when
    one of them has no timestamp the row kept has none either, since a
    null sorts before every timestamp in descending order. *)
Theorem workflow_kept_row_is_first (table : list workflow) (pattern : string)
  (kept other : workflow) :
  In kept (select_workflows_by_environment table pattern) ->
  In other table ->
  where_ilike (w_environment_variables other) pattern = true ->
  w_app_id other = w_app_id kept ->
  desc_le (w_updated_at kept) (w_updated_at other) = true
  /\ (w_updated_at other = None -> w_updated_at kept = None)
  /\ (forall t t', w_updated_at kept = Some t -> w_updated_at other = Some t' ->
        (t' <= t)%Z).
Proof.
  unfold select_workflows_by_environment, limit.
  set (matching := filter _ table).
  pose proof (order_by_sorted workflow_le workflow_le_total workflow_le_trans matching)
    as Hsorted.
  pose proof (order_by_perm workflow_le matching) as Hperm.
  set (sorted := order_by workflow_le matching) in *.
  intros Hkept Hother Hmatch Hid.
  assert (Hle : desc_le (w_updated_at kept) (w_updated_at other) = true).
  { apply in_firstn, distinct_on_first in Hkept as (l1 & l2 & Hsplit & Hl1).
    assert (Hin : In other sorted).
    { apply (Permutation_in other (Permutation_sym Hperm)).
      apply filter_In; auto. }
    rewrite Hsplit in Hin, Hsorted.
    apply in_app_or in Hin as [Hin|[Hin|Hin]].
    - now apply Hl1 in Hin.
    - subst other; apply desc_le_refl.
    - apply sorted_after in Hsorted.
      rewrite Forall_forall in Hsorted; apply Hsorted in Hin.
      apply workflow_le_spec in Hin as [Hin|[_ Hin]]; [lia | exact Hin]. }
  split; [exact Hle | split].
  - intros Hnone; rewrite Hnone in Hle.
    destruct (w_updated_at kept); [discriminate Hle | reflexivity].
  - intros t t' Ht Ht'; rewrite Ht, Ht' in Hle; now apply Z.leb_le in Hle.
Qed.

(** X28.  The cap of the workflow statement cuts by application identifier.
    When at most 50 rows match, every application with a matching row is
    in the result set.  In general an application with a matching row
    that is missing from the result set has an identifier above those of
    all applications returned, however recently it was updated. *)
Theorem workflow_limit_cuts_by_identifier (table : list workflow)
  (pattern : string) (w : workflow) :
  let rows := select_workflows_by_environment table pattern in
  In w table ->
  where_ilike (w_environment_variables w) pattern = true ->
  (List.length
     (filter (fun w => where_ilike (w_environment_variables w) pattern) table) <= 50 ->
   exists kept, In kept rows /\ w_app_id kept = w_app_id w)
  /\ (~ In (w_app_id w) (map w_app_id rows) ->
      forall kept, In kept rows -> (w_app_id kept < w_app_id w)%Z).
Proof.
  unfold select_workflows_by_environment, limit; cbv zeta.
  pose proof (workflows_ascending table pattern) as Hasc.
  set (matching := filter _ table) in *.
  pose proof (order_by_perm workflow_le matching) as Hperm.
  set (sorted := order_by workflow_le matching) in *.
  intros Hw Hmatch.
  assert (Hcover : exists x, In x (distinct_on w_app_id sorted)
                             /\ w_app_id x = w_app_id w).
  { apply distinct_on_covers.
    apply (Permutation_in w (Permutation_sym Hperm)), filter_In; auto. }
  destruct Hcover as (x & Hx & Hid); split.
  - intros Hfew; exists x; split; [|exact Hid].
    rewrite firstn_all2; [exact Hx|].
    pose proof (distinct_on_length w_app_id sorted).
    pose proof (Permutation_length Hperm); fold matching in Hfew; lia.
  - intros Hmissing kept Hkept.
    rewrite <- (firstn_skipn 50 (distinct_on w_app_id sorted)) in Hx, Hasc.
    apply in_app_or in Hx as [Hx|Hx].
    + exfalso; apply Hmissing; rewrite <- Hid; now apply in_map.
    + rewrite <- Hid; exact (sorted_across _ _ Hasc _ _ Hkept Hx).
Qed.

End Server.

(* ------------------------------------------------------------------ *)
(** ** The theorems at work on the scenarios *)
(* ------------------------------------------------------------------ *)

(** A Tool Node and an LLM Node with only their kind are read without
    an exception. *)
Lemma missing_fields_degrade_bare_nodes :
  tool_shaped bare_tool_node = true
  /\ llm_shaped bare_llm_node = true
  /\ (exists acc', tool_node_body ascii_lower "" [] bare_tool_node = Ok acc'
                   /\ (acc' = [] \/ acc' = [] ++ [tool_entry bare_tool_node]))
  /\ (exists acc', llm_node_body ascii_lower repr_elided "" [] bare_llm_node = Ok acc'
                   /\ (acc' = []
                       \/ acc' = [] ++ [llm_entry repr_elided bare_llm_node])).
Proof.
  repeat split.
  - exact (proj1 (missing_fields_degrade ascii_lower repr_elided "" []
                    bare_tool_node) eq_refl).
  - exact (proj1 (proj2 (missing_fields_degrade ascii_lower repr_elided "" []
                           bare_llm_node)) eq_refl).
Defined.

(** A null [provider_id] in a Tool Node, and a number as the [name] of a
    nested model, make the node loops raise. *)
Lemma wrong_shape_raises :
  tool_node_body ascii_lower (ascii_lower "google") [] null_provider_tool_node
    = Raise AttributeError
  /\ llm_node_body ascii_lower repr_elided (ascii_lower "openai") []
       numeric_name_llm_node
     = Raise AttributeError.
Proof. split; reflexivity. Qed.

(** The keyword ["GPT"] finds the node whose model is ["gpt-4"], and only
    that one, in the sample document. *)
Lemma graph_node_matcher_gpt :
  graph_nodes sample_graph = Ok [search_tool_node; claude_llm_node; flat_llm_node]
  /\ match_nodes (llm_node_body ascii_lower repr_elided (ascii_lower "GPT"))
       sample_graph
     = Ok [llm_entry repr_elided flat_llm_node].
Proof.
  split; [reflexivity|].
  destruct (graph_node_matcher_filter ascii_lower repr_elided "GPT" sample_graph
              eq_refl) as (_ & Hllm & _ & _ & _ & _ & _ & Hok).
  specialize (Hok eq_refl).
  destruct (match_nodes _ sample_graph) as [out|e]; [|discriminate Hok].
  now rewrite (Hllm out eq_refl).
Defined.


(** The title of the node of the second scenario. *)
Lemma tool_title_lookup_search :
  node_data search_tool_node
    = Some [("type", VStr "tool"); ("provider_id", VStr "google_search");
            ("tool_name", VStr "search"); ("title", VStr "Search")]
  /\ tool_node_title search_tool_node
       (VDict [("type", VStr "tool"); ("provider_id", VStr "google_search");
               ("tool_name", VStr "search"); ("title", VStr "Search")])
     = Ok (VStr "Search").
Proof.
  split; [reflexivity|].
  exact (proj2 (tool_title_lookup_simple ascii_lower "" [] search_tool_node) _ eq_refl).
Defined.

(** A row with a truncated graph between two others changes nothing. *)
Lemma unreadable_rows_skipped_truncated :
  record_get row_truncated_graph "graph" = Ok (VStr "{")
  /\ try_json_loads (loads_from sample_documents) (VStr "{") = Ok None
  /\ plugin_results ascii_lower (loads_from sample_documents) repr_elided "google"
       ([row_app1] ++ row_truncated_graph :: [row_null_graph])
     = plugin_results ascii_lower (loads_from sample_documents) repr_elided "google"
         ([row_app1] ++ [row_null_graph]).
Proof.
  split; [reflexivity | split; [reflexivity|]].
  destruct (unreadable_rows_skipped ascii_lower (loads_from sample_documents)
              repr_elided "google" [row_app1] [row_null_graph] row_truncated_graph
              eq_refl) as (Hskip & _).
  exact (proj1 (Hskip (or_intror eq_refl))).
Defined.

(** The plugin search echoes ["Google"] with its capital. *)
Lemma keyword_echoed_google :
  exists s d,
    search_workflows_by_plugin ascii_lower (loads_from sample_documents)
      dumps_elided repr_elided sample_fetch "Google" = Ok s
    /\ s = dumps_elided (VDict d)
    /\ dict_lookup d "keyword" = Some (VStr "Google").
Proof.
  destruct (keyword_echoed ascii_lower (loads_from sample_documents) dumps_elided
              repr_elided sample_fetch "Google") as (_ & Hplugin & _).
  destruct (Hplugin _ eq_refl) as (d & _ & Hs & Hk).
  exists (dumps_elided (VDict d)), d.
  split; [now rewrite <- Hs | split; [reflexivity | exact Hk]].
Defined.

(** Two rows projected on three of their columns. *)
Lemma format_rows_projection_sample :
  NoDup ["c"; "a"; "b"]
  /\ Forall (has_columns ["c"; "a"; "b"]) sample_rows
  /\ exists items : list dict,
       _format_rows repr_elided sample_rows ["c"; "a"; "b"] = Ok (map VDict items)
       /\ Forall2 (projects repr_elided ["c"; "a"; "b"]) sample_rows items.
Proof.
  assert (Hnd : NoDup ["c"; "a"; "b"]).
  { repeat constructor; simpl; intros H;
      repeat destruct H as [H|H]; try discriminate H; exact H. }
  assert (Hcols : Forall (has_columns ["c"; "a"; "b"]) sample_rows).
  { repeat constructor; intros col H;
      repeat destruct H as [H|H]; try (subst col; discriminate); destruct H. }
  split; [exact Hnd | split; [exact Hcols|]].
  destruct (format_rows_projection repr_elided Hnd Hcols)
    as (items & Hrun & Hall & _).
  exists items; split; assumption.
Defined.

(** A column named twice gives a dictionary with one key for a
    projection of size two, and a column the row does not have raises. *)
Lemma format_rows_repeated_or_missing_column :
  (exists item : dict,
     _format_rows repr_elided [[("a", VInt 1)]] ["a"; "a"] = Ok [VDict item]
     /\ List.length (dict_keys item) <> List.length ["a"; "a"])
  /\ _format_rows repr_elided [[("a", VInt 1)]] ["b"] = Raise KeyError.
Proof.
  split; [|reflexivity].
  exists [("a", VStr "1")]; split; [reflexivity | discriminate].
Qed.

(** Of the two matching versions of application 7 the older one is not
    returned and the later one is. *)
Lemma workflow_result_set_sample :
  In (workflow_v 7 25) sample_workflows
  /\ where_ilike ilike_plain
       (w_environment_variables (workflow_v 7 25)) "%api_key%" = true
  /\ ~ In (workflow_v 7 20)
         (select_workflows_by_environment ilike_plain sample_workflows "%api_key%")
  /\ In (workflow_v 7 25)
       (select_workflows_by_environment ilike_plain sample_workflows "%api_key%").
Proof.
  assert (Hin : In (workflow_v 7 25) sample_workflows)
    by (right; right; left; reflexivity).
  split; [exact Hin | split; [reflexivity|]].
  destruct (workflow_result_set ilike_plain sample_workflows "%api_key%")
    as (_ & _ & _ & Hearlier & Hlater & Hkept & _).
  split.
  - apply (Hearlier (workflow_v 7 20) (workflow_v 7 25) 20%Z 25%Z);
      [exact Hin | reflexivity | reflexivity | reflexivity | reflexivity
      | reflexivity].
  - apply (Hlater (workflow_v 7 25) 25%Z);
      [exact Hin | reflexivity | reflexivity | |].
    + intros c [<-|[<-|[<-|[]]]] _ Hid Hne.
      * exists 20%Z; split; reflexivity.
      * discriminate Hid.
      * now destruct Hne.
    + destruct (Hkept (workflow_v 7 25) Hin eq_refl) as [H|[Hlen _]];
        [exact H | discriminate Hlen].
Defined.

(** The workflow result set of the sample is not in most-recently-updated
    order: application 7, updated at 25, comes before application 9,
    updated at 30.  And of fifty-one matching applications the one
    updated last is not returned at all, neither by its later row nor by
    its earlier one: the cap keeps the fifty smallest identifiers. *)
Lemma workflow_result_set_order_and_cap :
  select_workflows_by_environment ilike_plain sample_workflows "%api_key%"
    = [workflow_v 7 25; workflow_v 9 30]
  /\ ~ most_recent_first w_updated_at
         (select_workflows_by_environment ilike_plain sample_workflows "%api_key%")
  /\ In (workflow_v 51 51) fifty_one_applications
  /\ In (workflow_v 51 0) fifty_one_applications
  /\ existsb (fun w => Z.eqb (w_app_id w) 51)
       (select_workflows_by_environment ilike_plain fifty_one_applications
          "%api_key%")
     = false.
Proof.
  split; [reflexivity | split; [|split; [|split]]].
  - intros H; inversion H as [|a l _ Hall]; subst.
    inversion Hall as [|b l' Hab _]; subst.
    discriminate Hab.
  - right; apply in_map_iff; exists 51; split; [reflexivity|].
    apply in_seq; lia.
  - left; reflexivity.
  - vm_compute; reflexivity.
Qed.

(** Acquire, tear down, acquire: the second pool is not the first. *)
Lemma pool_lifecycle_reacquire :
  let w := pool_run (fun _ => true) [Acquire local_config] process_start in
  lifecycle_of w
    = Active {| pool_id := 0; pool_config := local_config;
                min_size := 1; max_size := 5 |}
  /\ exists p',
       fst (get_pool (fun _ => true) local_config (close_pool w)) = Ok p'
       /\ pool_id p' <> 0.
Proof.
  intros w; split; [reflexivity|].
  destruct (pool_lifecycle (fun _ => true) [Acquire local_config])
    as (_ & _ & _ & _ & Hfresh & _).
  destruct (Hfresh _ local_config eq_refl eq_refl) as (p' & Hget & _ & Hne & _).
  exists p'; split; [exact Hget | exact Hne].
Defined.

(* ------------------------------------------------------------------ *)
(** ** The end-to-end scenarios, evaluated *)
(* ------------------------------------------------------------------ *)

Example keyword_is_lowered_once :
  contains (ascii_lower "GPT") (ascii_lower "gpt-4") = true
  /\ contains (ascii_lower "GPT") (ascii_lower "claude-3") = false
  /\ contains "" "" = true.
Proof. repeat split. Qed.

Example plugin_scenario :
  plugin_results ascii_lower (loads_from sample_documents) repr_elided "google"
    [row_app1; row_truncated_graph; row_null_graph]
  = Ok [VDict [("app_id", VStr "app-1"); ("app_name", VStr "Search app");
               ("matching_tools",
                VList [VDict [("node_id", VStr "n1"); ("node_title", VStr "Search");
                              ("provider_id", VStr "google_search");
                              ("tool_name", VStr "search")]]);
               ("updated_at", VStr "2024-01-02 00:00:00")]].
Proof. reflexivity. Qed.

Example llm_scenario :
  llm_results ascii_lower (loads_from sample_documents) repr_elided "claude"
    [row_app1]
  = Ok [VDict [("app_id", VStr "app-1"); ("app_name", VStr "Search app");
               ("matching_llms",
                VList [VDict [("node_id", VStr ""); ("node_title", VStr "LLM");
                              ("model", VStr "claude-3");
                              ("provider", VStr "anthropic")]]);
               ("updated_at", VStr "2024-01-02 00:00:00")]].
Proof. reflexivity. Qed.

(** A graph that parses to something other than a mapping is not skipped:
    [graph.get] raises. *)
Example list_document_raises :
  plugin_results ascii_lower (fun _ => Loaded (VList [])) repr_elided "google" [row_app1]
  = Raise AttributeError.
Proof. reflexivity. Qed.

Example utf8_samples :
  utf8_valid "Bearer s3cret" = true
  /\ utf8_valid (String (ascii_of_nat 195) (String (ascii_of_nat 169) "")) = true
  /\ utf8_valid (String (ascii_of_nat 255) "") = false
  /\ utf8_valid (String (ascii_of_nat 192) (String (ascii_of_nat 128) "")) = false
  /\ utf8_valid (String (ascii_of_nat 237)
                   (String (ascii_of_nat 160) (String (ascii_of_nat 128) ""))) = false.
Proof. repeat split. Qed.

Example middleware_samples :
  middleware_call "s3cret"
    {| scope_type := "http";
       scope_headers := Some [("authorization", "Bearer s3cret")] |}
  = Ok (Forward {| scope_type := "http";
                   scope_headers := Some [("authorization", "Bearer s3cret")] |})
  /\ middleware_call "s3cret"
       {| scope_type := "http"; scope_headers := Some [("authorization", "Bearer x")] |}
     = Ok unauthorized
  /\ middleware_call "s3cret" {| scope_type := "http"; scope_headers := None |}
     = Ok unauthorized
  /\ middleware_call "s3cret" {| scope_type := "lifespan"; scope_headers := None |}
     = Ok (Forward {| scope_type := "lifespan"; scope_headers := None |}).
Proof. repeat split. Qed.

(* ------------------------------------------------------------------ *)
(** ** Nodes on which the loops raise *)
(* ------------------------------------------------------------------ *)

(** A Tool Node whose [tool_name] is the keyword and whose [provider_id]
    is null meets the condition of the matcher, and the matcher raises
    instead of reporting it; a document whose only node is a number has no
    node of the kind, and the matcher raises instead of returning the
    empty list. *)
Lemma matcher_raises_on_qualifying_node :
  kind_is (data_of null_provider_tool_node) "tool" = true
  /\ field_or_empty (data_of null_provider_tool_node) "tool_name" = VStr "search"
  /\ contains (ascii_lower "Search") (ascii_lower "search") = true
  /\ match_nodes (tool_node_body ascii_lower (ascii_lower "Search"))
       (document [search_tool_node; null_provider_tool_node])
     = Raise AttributeError
  /\ graph_nodes (document [VInt 5]) = Ok [VInt 5]
  /\ match_nodes (tool_node_body ascii_lower (ascii_lower "Search"))
       (document [VInt 5])
     = Raise AttributeError
  /\ match_nodes (llm_node_body ascii_lower repr_elided (ascii_lower "Search"))
       (document [VInt 5])
     = Raise AttributeError.
Proof. repeat split. Qed.


(** A row whose graph is an integer of 4301 digits ends the search with
    the [ValueError] of [json.loads]. *)
Lemma uncaught_parse_error_surfaces_huge_integer :
  record_get row_huge_integer "graph" = Ok (VStr (ones 4301))
  /\ loads_with_digit_limit (ones 4301) = LoadsRaised ValueError
  /\ plugin_results ascii_lower loads_with_digit_limit repr_elided "google"
       ([row_app1] ++ row_huge_integer :: [row_null_graph])
     = Raise ValueError.
Proof.
  assert (Hload : loads_with_digit_limit (ones 4301) = LoadsRaised ValueError)
    by (vm_compute; reflexivity).
  split; [reflexivity | split; [exact Hload|]].
  refine (proj1 (uncaught_parse_error_surfaces ascii_lower loads_with_digit_limit
                   repr_elided "google" [row_app1] [row_null_graph]
                   row_huge_integer (s := ones 4301) (e := ValueError)
                   [VDict [("app_id", VStr "app-1"); ("app_name", VStr "Search app");
                           ("matching_tools", VList [tool_entry search_tool_node]);
                           ("updated_at", VStr "2024-01-02 00:00:00")]]
                   eq_refl _ Hload) eq_refl).
  intros H; discriminate H.
Defined.

(** Two overlapping first calls against the local database. *)
Lemma overlapping_acquisitions_local :
  local_only local_config = true
  /\ map fst
       (returned
          (loop_run local_only
             [Enter 1 local_config; Enter 2 local_config; Resume 1;
              Enter 3 local_config; Resume 2; Enter 4 local_config; Shutdown]
             loop_start))
     = [1; 3; 2; 4]
  /\ closed
       (loop_process
          (loop_run local_only
             [Enter 1 local_config; Enter 2 local_config; Resume 1;
              Enter 3 local_config; Resume 2; Enter 4 local_config; Shutdown]
             loop_start))
     = [1].
Proof.
  split; [reflexivity|].
  destruct (overlapping_acquisitions_create_two_pools local_only local_config
              eq_refl) as (Hret & _ & _ & _ & _ & Hclosed & _).
  split; [now rewrite Hret | exact Hclosed].
Defined.

(* ------------------------------------------------------------------ *)
(** ** The further theorems at work *)
(* ------------------------------------------------------------------ *)

Lemma sample_rows_have_abc : Forall (has_columns ["a"; "b"; "a"]) sample_rows.
Proof.
  repeat constructor; intros col H;
    repeat destruct H as [H|H]; try (subst col; discriminate); destruct H.
Defined.

Lemma format_rows_raises_on_missing_column_sample :
  Forall (has_columns ["a"; "b"; "a"]) sample_rows
  /\ Exists (lacks_column ["a"; "zz"]) sample_rows
  /\ (exists out, _format_rows repr_elided sample_rows ["a"; "b"; "a"] = Ok out
                  /\ List.length out = List.length sample_rows)
  /\ _format_rows repr_elided sample_rows ["a"; "zz"] = Raise KeyError.
Proof.
  assert (Hlacks : Exists (lacks_column ["a"; "zz"]) sample_rows).
  { left; exists "zz"; split; [right; now left | reflexivity]. }
  split; [exact sample_rows_have_abc | split; [exact Hlacks | split]].
  - exact (proj1 (format_rows_raises_on_missing_column repr_elided sample_rows
                    ["a"; "b"; "a"]) sample_rows_have_abc).
  - exact (proj2 (format_rows_raises_on_missing_column repr_elided sample_rows
                    ["a"; "zz"]) Hlacks).
Defined.

Lemma format_rows_repeated_columns_sample :
  Forall (has_columns ["a"; "b"; "a"]) sample_rows
  /\ exists items : list dict,
       _format_rows repr_elided sample_rows ["a"; "b"; "a"] = Ok (map VDict items)
       /\ Forall (fun item => dict_keys item = ["a"; "b"]) items.
Proof.
  split; [exact sample_rows_have_abc|].
  destruct (format_rows_repeated_columns repr_elided sample_rows_have_abc)
    as (items & Hrun & Hall).
  exists items; split; [exact Hrun|].
  clear Hrun; induction Hall as [|row item rows items [Hkeys _] _ IH];
    constructor; [exact Hkeys | exact IH].
Defined.

Lemma format_rows_values_plain_sample :
  _format_rows repr_elided sample_rows ["c"; "a"]
    = Ok [VDict [("c", VList [VInt 2]); ("a", VStr "1")];
          VDict [("c", VStr "2024-01-02"); ("a", VDict [])]]
  /\ Forall (fun x => exists item : dict,
               x = VDict item
               /\ Forall (fun kv => plain_value (snd kv) = true) item)
       [VDict [("c", VList [VInt 2]); ("a", VStr "1")];
        VDict [("c", VStr "2024-01-02"); ("a", VDict [])]].
Proof.
  split; [reflexivity|].
  exact (format_rows_values_plain repr_elided sample_rows ["c"; "a"] eq_refl).
Defined.

Lemma other_kind_nodes_ignored_sample :
  node_data claude_llm_node
    = Some [("type", VStr "llm");
            ("model", VDict [("name", VStr "claude-3"); ("provider", VStr "anthropic")]);
            ("title", VStr "LLM")]
  /\ tool_node_body ascii_lower "claude" [] claude_llm_node = Ok [].
Proof.
  split; [reflexivity|].
  exact (proj1 (other_kind_nodes_ignored ascii_lower repr_elided "claude" []
                  claude_llm_node eq_refl) eq_refl).
Defined.

Lemma first_field_match_short_circuits_sample :
  node_data numeric_tool_name_node
    = Some [("type", VStr "tool"); ("provider_id", VStr "google_search");
            ("tool_name", VInt 3)]
  /\ tool_node_body ascii_lower "google" [] numeric_tool_name_node
     = Ok [tool_entry numeric_tool_name_node]
  /\ tool_node_body ascii_lower "bing" [] numeric_tool_name_node
     = Raise AttributeError.
Proof.
  split; [reflexivity|].
  destruct (proj1 (first_field_match_short_circuits ascii_lower repr_elided
                     "google" [] numeric_tool_name_node "google_search" eq_refl)
              eq_refl eq_refl) as [Hhit _].
  destruct (proj1 (first_field_match_short_circuits ascii_lower repr_elided
                     "bing" [] numeric_tool_name_node "google_search" eq_refl)
              eq_refl eq_refl) as [_ Hmiss].
  split; [exact (Hhit eq_refl) | apply (Hmiss eq_refl)].
  intros s H; discriminate H.
Defined.

Lemma empty_keyword_matches_all_sample :
  node_data search_tool_node
    = Some [("type", VStr "tool"); ("provider_id", VStr "google_search");
            ("tool_name", VStr "search"); ("title", VStr "Search")]
  /\ tool_node_body ascii_lower "" [] search_tool_node
     = Ok [tool_entry search_tool_node].
Proof.
  split; [reflexivity|].
  exact (proj1 (empty_keyword_matches_all ascii_lower repr_elided []
                  search_tool_node eq_refl) eq_refl eq_refl).
Defined.

Lemma null_model_reads_as_text_sample :
  node_data null_model_llm_node
    = Some [("type", VStr "llm"); ("model", VNone); ("provider", VStr "openai")]
  /\ llm_node_body ascii_lower repr_elided "none" [] null_model_llm_node
     = Ok [VDict [("node_id", VStr "n6"); ("node_title", VStr "");
                  ("model", VStr "None"); ("provider", VStr "openai")]].
Proof.
  split; [reflexivity|].
  exact (null_model_reads_as_text ascii_lower repr_elided "none" []
           null_model_llm_node eq_refl eq_refl eq_refl).
Defined.

Lemma results_follow_rows_sample :
  exists results,
    plugin_results ascii_lower (loads_from sample_documents) repr_elided "google"
      [row_app1; row_truncated_graph; row_null_graph] = Ok results
    /\ List.length results <= 3.
Proof.
  eexists; split; [reflexivity|].
  exact (proj1 (proj1 (results_follow_rows ascii_lower (loads_from sample_documents)
                         repr_elided "google"
                         [row_app1; row_truncated_graph; row_null_graph] _)
                  eq_refl)).
Defined.

Lemma parsed_document_errors_abort_sample :
  record_get row_list_graph "graph" = Ok (VStr "<a list>")
  /\ try_json_loads (loads_from more_documents) (VStr "<a list>")
     = Ok (Some (VList [VInt 1]))
  /\ plugin_results ascii_lower (loads_from more_documents) repr_elided "google"
       ([row_app1] ++ row_list_graph :: [row_null_graph])
     = Raise AttributeError.
Proof.
  split; [reflexivity | split; [reflexivity|]].
  destruct (parsed_document_errors_abort ascii_lower (loads_from more_documents)
              repr_elided "google" [row_app1] [row_null_graph] row_list_graph
              (g := VStr "<a list>") (graph := VList [VInt 1])
              [VDict [("app_id", VStr "app-1"); ("app_name", VStr "Search app");
                      ("matching_tools", VList [tool_entry search_tool_node]);
                      ("updated_at", VStr "2024-01-02 00:00:00")]]
              eq_refl eq_refl eq_refl) as [Hplugin _].
  exact (proj2 (Hplugin eq_refl) eq_refl).
Defined.

Lemma credential_record_columns :
  Forall (has_columns credential_columns) [credential_record].
Proof.
  repeat constructor; intros col H;
    repeat destruct H as [H|H]; try (subst col; discriminate); destruct H.
Defined.

Lemma credentials_envelope_counts_sample :
  exists out,
    _format_rows repr_elided [credential_record] credential_columns = Ok out
    /\ search_dify_credentials_output repr_elided credential_fetch "openai"
       = Ok (envelope
               (count_line "provider_model_credentials" 1
                ++ " | " ++ count_line "tool_builtin_providers" 0
                ++ " | " ++ count_line "workflows" 0)%string
               "openai"
               (VDict [("provider_model_credentials", VList out);
                       ("tool_builtin_providers", VList []);
                       ("workflows", VList [])])).
Proof.
  destruct (credentials_envelope_counts repr_elided credential_fetch "openai"
              (rows1 := [credential_record]) (rows2 := []) (rows3 := [])
              eq_refl eq_refl eq_refl credential_record_columns
              (Forall_nil _) (Forall_nil _))
    as (out1 & out2 & out3 & E1 & E2 & E3 & L1 & L2 & L3 & Hout).
  exists out1; split; [exact E1|].
  injection E2 as <-; injection E3 as <-.
  rewrite Hout, L1; reflexivity.
Defined.

Lemma query_failure_aborts_sample :
  tool_providers_down SelectToolBuiltinProviders (like_pattern "openai")
    = Raise ConnectionError
  /\ is_ok (search_dify_credentials dumps_elided repr_elided tool_providers_down
              "openai") = false.
Proof.
  split; [reflexivity|].
  exact (proj1 (proj2 (query_failure_aborts ascii_lower (loads_from sample_documents)
                         dumps_elided repr_elided tool_providers_down "openai"
                         ConnectionError)) eq_refl).
Defined.

Lemma no_authorization_accept :
  no_authorization [("accept", "text/event-stream")].
Proof. intros kv [<-|[]] H; discriminate H. Defined.

Lemma last_authorization_header_wins_sample :
  authorization_of two_credentials_scope = "Bearer s3cret".
Proof.
  exact (last_authorization_header_wins two_credentials_scope
           [("authorization", "Bearer old"); ("host", "dify")]
           "Bearer s3cret" eq_refl no_authorization_accept).
Defined.

Lemma middleware_forwards_only_bearer_sample :
  middleware_call "s3cret" two_credentials_scope = Ok (Forward two_credentials_scope)
  /\ ("s3cret" = "" \/ http_shaped two_credentials_scope = false
      \/ authorization_of two_credentials_scope = "Bearer s3cret").
Proof.
  split; [reflexivity|].
  exact (proj2 (middleware_forwards_only_bearer "s3cret" two_credentials_scope
                  eq_refl)).
Defined.

Lemma middleware_accepts_bearer_sample :
  utf8_valid "s3cret" = true
  /\ middleware_call "s3cret" two_credentials_scope
     = Ok (Forward two_credentials_scope).
Proof.
  split; [reflexivity|].
  exact (middleware_accepts_bearer (api_key := "s3cret") two_credentials_scope
           eq_refl eq_refl).
Defined.

Lemma middleware_rejects_missing_header_sample :
  http_shaped capitalized_header_scope = true
  /\ middleware_call "s3cret" capitalized_header_scope = Ok unauthorized.
Proof.
  split; [reflexivity|].
  apply middleware_rejects_missing_header; [discriminate | reflexivity|].
  right; exists [("Authorization", "Bearer s3cret")]; split; [reflexivity|].
  intros kv [<-|[]] H; discriminate H.
Defined.

Lemma pool_never_leaks_sample :
  let w := pool_run local_only
             [Acquire local_config; Teardown; Acquire remote_config;
              Acquire local_config; Teardown]
             process_start in
  created w = 2 /\ In 0 (closed w) /\ In 1 (closed w).
Proof.
  intros w; split; [reflexivity|].
  destruct (pool_never_leaks local_only
              [Acquire local_config; Teardown; Acquire remote_config;
               Acquire local_config; Teardown]) as [_ Hall].
  fold w in Hall; split.
  - destruct (Hall 0) as [H|(p & Hp & _)]; [repeat constructor | exact H|].
    discriminate Hp.
  - destruct (Hall 1) as [H|(p & Hp & _)]; [repeat constructor | exact H|].
    discriminate Hp.
Defined.

Lemma shutdown_closes_every_pool_sample :
  let w := close_pool (pool_run local_only [Acquire local_config] process_start) in
  created w = 1 /\ In 0 (closed w).
Proof.
  intros w; split; [reflexivity|].
  destruct (shutdown_closes_every_pool local_only [Acquire local_config])
    as (_ & Hall & _).
  apply Hall; repeat constructor.
Defined.

Lemma pool_configuration_sticks_sample :
  local_only remote_config = false
  /\ exists p,
       pool_config p = local_config
       /\ fst (acquire_all local_only [remote_config; local_config]
                 (snd (get_pool local_only local_config process_start)))
          = [Ok p; Ok p].
Proof.
  split; [reflexivity|].
  destruct (pool_configuration_sticks local_only process_start local_config
              [remote_config; local_config] eq_refl eq_refl)
    as (p & _ & Hcfg & Hlater).
  exists p; split; [exact Hcfg | exact Hlater].
Defined.

Lemma db_config_reads_five_variables_sample :
  _get_db_config int_of_sample [("PATH", "/usr/bin"); ("MCP_API_KEY", "s3cret")]
    = Some local_config
  /\ _get_db_config int_of_sample [("DB_PORT", "54e2")] = None.
Proof.
  split.
  - apply (proj2 (proj2 (db_config_reads_five_variables int_of_sample
                           [("PATH", "/usr/bin"); ("MCP_API_KEY", "s3cret")] [])));
      [|reflexivity].
    intros name H; repeat destruct H as [H|H]; try (subst name; reflexivity);
      destruct H.
  - apply (proj1 (proj2 (db_config_reads_five_variables int_of_sample
                           [("DB_PORT", "54e2")] []))); reflexivity.
Defined.

Lemma tool_call_outcomes_sample :
  _get_db_config int_of_sample [("DB_PORT", "54e2")] = None
  /\ tool_call local_only int_of_sample [("DB_PORT", "54e2")] process_start
       (Ok "{}")
     = (ConfigError, process_start)
  /\ tool_call local_only int_of_sample [("DB_HOST", "db.internal")] process_start
       (Ok "{}")
     = (Failed ConnectionError, process_start).
Proof.
  split; [reflexivity | split].
  - exact (proj1 (tool_call_outcomes local_only int_of_sample
                    [("DB_PORT", "54e2")] process_start (Ok "{}")) eq_refl).
  - exact (proj1 (proj2 (tool_call_outcomes local_only int_of_sample
                           [("DB_HOST", "db.internal")] process_start (Ok "{}")))
             _ eq_refl eq_refl eq_refl).
Defined.


Lemma credential_result_sets_sample :
  List.length
    (filter (fun c => where_ilike ilike_plain (c_encrypted_config c) "%api_key%"
                      || where_ilike ilike_plain (c_credential_name c) "%api_key%")
       sample_credentials) <= 50
  /\ Permutation
       (select_provider_model_credentials ilike_plain sample_credentials "%api_key%")
       (filter (fun c => where_ilike ilike_plain (c_encrypted_config c) "%api_key%"
                         || where_ilike ilike_plain (c_credential_name c) "%api_key%")
          sample_credentials).
Proof.
  assert (Hfew : List.length
                   (filter (fun c =>
                              where_ilike ilike_plain (c_encrypted_config c) "%api_key%"
                              || where_ilike ilike_plain (c_credential_name c)
                                   "%api_key%")
                      sample_credentials) <= 50).
  { simpl; repeat constructor. }
  split; [exact Hfew|].
  destruct (credential_result_sets ilike_plain sample_credentials [] "%api_key%")
    as [(_ & _ & _ & Hall) _].
  exact (Hall Hfew).
Defined.

Lemma workflow_kept_row_is_first_sample :
  In (workflow_v 7 25)
    (select_workflows_by_environment ilike_plain sample_workflows "%api_key%")
  /\ In (workflow_v 7 20) sample_workflows
  /\ desc_le (w_updated_at (workflow_v 7 25)) (w_updated_at (workflow_v 7 20)) = true.
Proof.
  assert (Hkept : In (workflow_v 7 25)
                    (select_workflows_by_environment ilike_plain sample_workflows
                       "%api_key%")) by (left; reflexivity).
  assert (Hother : In (workflow_v 7 20) sample_workflows) by (left; reflexivity).
  split; [exact Hkept | split; [exact Hother|]].
  exact (proj1 (workflow_kept_row_is_first ilike_plain sample_workflows "%api_key%"
                  (workflow_v 7 25) (workflow_v 7 20) Hkept Hother eq_refl eq_refl)).
Defined.

Lemma workflow_limit_cuts_by_identifier_sample :
  In (workflow_v 9 30) sample_workflows
  /\ exists kept,
       In kept (select_workflows_by_environment ilike_plain sample_workflows
                  "%api_key%")
       /\ w_app_id kept = 9%Z.
Proof.
  assert (Hin : In (workflow_v 9 30) sample_workflows)
    by (right; left; reflexivity).
  split; [exact Hin|].
  apply (proj1 (workflow_limit_cuts_by_identifier ilike_plain sample_workflows
                  "%api_key%" (workflow_v 9 30) Hin eq_refl)).
  simpl; repeat constructor.
Defined.

Lemma middleware_rejects_wrong_credential_sample :
  http_shaped wrong_credential_scope = true
  /\ utf8_valid (authorization_of wrong_credential_scope) = true
  /\ middleware_call "s3cret" wrong_credential_scope = Ok unauthorized.
Proof.
  split; [reflexivity | split; [reflexivity|]].
  apply middleware_rejects_wrong_credential;
    [discriminate | reflexivity | reflexivity | discriminate].
Defined.

Lemma middleware_open_access_sample :
  http_shaped lifespan_scope = false
  /\ middleware_call "s3cret" lifespan_scope = Ok (Forward lifespan_scope).
Proof.
  split; [reflexivity|].
  exact (proj2 (proj2 (middleware_open_access "s3cret" lifespan_scope)) eq_refl).
Defined.
